(** * html-lint: the project-aware HTML lint orchestrator

    A shallow embedding of [src/extensions/default/HTMLCodeHints/html-lint.js].

    The module keeps three pieces of process-wide state
    ([projectSpecificOptions], [configErrorMessage], [configID]) and reacts to
    host events.  Every asynchronous suspension point of the source (the
    document read of [_readConfig], the promise reaction of [_reloadOptions],
    each [await FileSystem.existsAsync] of [_validateUnsupportedConfig], the
    [IndexingWorker.execPeer] call of [lintOneFile]) is a pending task of the
    model; the host resolves tasks one at a time, in any order, interleaved
    with project switches, editor switches and new requests. *)

From Stdlib Require Import ZArith Ascii String.
From stdpp Require Import gmap strings list.

Local Open Scope Z_scope.

(** ** JavaScript values *)

(** A JSON numeric literal, kept exact: the value is
    [(-1)^num_neg * num_mantissa * 10^num_exp10]. *)
Record JSNumber := {
  num_neg : bool;
  num_mantissa : Z;
  num_exp10 : Z
}.

(** The values that flow through the module: [undefined], [null] and what
    [JSON.parse] can return.  Strings are byte strings. *)
#[warnings="-register-all"]
Inductive JSValue :=
| JUndefined
| JNull
| JBool (b : bool)
| JNumber (n : JSNumber)
| JString (s : string)
| JArray (items : list JSValue)
| JObject (members : list (string * JSValue)).

(** A decimal literal denotes the Number zero when it is exactly zero or when
    it rounds to zero in binary64, that is when its magnitude is at most
    [2^-1075] (half of the least subnormal, ties going to the even zero). *)
Definition rounds_to_zero (n : JSNumber) : bool :=
  (num_mantissa n =? 0)
  || ((num_exp10 n <? 0)
      && (num_mantissa n * 2 ^ 1075 <=? 10 ^ (- num_exp10 n))).

(** ECMAScript [ToBoolean], the test behind [if (v)] and [!v]. *)
Definition ToBoolean (v : JSValue) : bool :=
  match v with
  | JUndefined | JNull => false
  | JBool b => b
  | JNumber n => negb (rounds_to_zero n)
  | JString s => negb (String.eqb s EmptyString)
  | JArray _ | JObject _ => true
  end.

(** ** [JSON.parse]

    The builtin the source calls on the text of the configuration file: the
    JSON grammar of ECMA-404 read over the characters of the text.  [None]
    stands for the [SyntaxError] it throws. *)
Module JSON.

Definition is_ws (c : ascii) : bool :=
  Ascii.eqb c " " || Ascii.eqb c "009" || Ascii.eqb c "010" || Ascii.eqb c "013".

Fixpoint skip_ws (l : list ascii) : list ascii :=
  match l with
  | c :: r => if is_ws c then skip_ws r else l
  | [] => []
  end.

Definition digit_val (c : ascii) : option Z :=
  let n := Z.of_nat (nat_of_ascii c) in
  if (48 <=? n) && (n <=? 57) then Some (n - 48) else None.

Definition hex_val (c : ascii) : option Z :=
  let n := Z.of_nat (nat_of_ascii c) in
  if (48 <=? n) && (n <=? 57) then Some (n - 48)
  else if (65 <=? n) && (n <=? 70) then Some (n - 55)
  else if (97 <=? n) && (n <=? 102) then Some (n - 87)
  else None.

(** The longest prefix of decimal digits, its value and its length. *)
Fixpoint take_digits (l : list ascii) (acc : Z) (len : Z) : Z * Z * list ascii :=
  match l with
  | c :: r =>
      match digit_val c with
      | Some d => take_digits r (10 * acc + d) (len + 1)
      | None => (acc, len, l)
      end
  | [] => (acc, len, [])
  end.

(** [int]: a single [0], or a nonzero digit followed by digits. *)
Definition parse_int (l : list ascii) : option (Z * list ascii) :=
  match l with
  | c :: r =>
      if Ascii.eqb c "0" then Some (0, r)
      else match digit_val c with
           | Some d => let '(v, _, r') := take_digits r d 1 in Some (v, r')
           | None => None
           end
  | [] => None
  end.

(** [frac]: optional, a dot followed by at least one digit; the digits
    extend the mantissa and lower the exponent. *)
Definition parse_frac (m : Z) (l : list ascii) : option (Z * Z * list ascii) :=
  match l with
  | c :: r =>
      if Ascii.eqb c "." then
        let '(v, len, r') := take_digits r m 0 in
        if len =? 0 then None else Some (v, - len, r')
      else Some (m, 0, l)
  | [] => Some (m, 0, l)
  end.

(** The optional sign of an exponent. *)
Definition parse_sign (l : list ascii) : Z * list ascii :=
  match l with
  | c :: r =>
      if Ascii.eqb c "+" then (1, r)
      else if Ascii.eqb c "-" then (-1, r)
      else (1, l)
  | [] => (1, l)
  end.

(** [exp]: optional, [e] or [E], an optional sign, at least one digit. *)
Definition parse_exp (l : list ascii) : option (Z * list ascii) :=
  match l with
  | c :: r =>
      if Ascii.eqb c "e" || Ascii.eqb c "E" then
        let '(sgn, r1) := parse_sign r in
        let '(v, len, r') := take_digits r1 0 0 in
        if len =? 0 then None else Some (sgn * v, r')
      else Some (0, l)
  | [] => Some (0, l)
  end.

(** The optional minus sign of a number. *)
Definition parse_minus (l : list ascii) : bool * list ascii :=
  match l with
  | c :: r => if Ascii.eqb c "-" then (true, r) else (false, l)
  | [] => (false, l)
  end.

(** [number]: minus, int, frac, exp. *)
Definition parse_number (l : list ascii) : option (JSValue * list ascii) :=
  let '(neg, l1) := parse_minus l in
  '(i, l2) ← parse_int l1;
  '(m, e1, l3) ← parse_frac i l2;
  '(e2, l4) ← parse_exp l3;
  Some (JNumber {| num_neg := neg; num_mantissa := m; num_exp10 := e1 + e2 |}, l4).

(** A [\uXXXX] code unit is stored as the bytes of its UTF-8 form. *)
Definition encode_unit (n : Z) : list ascii :=
  let byte z := ascii_of_nat (Z.to_nat z) in
  if n <? 128 then [byte n]
  else if n <? 2048 then [byte (192 + n / 64); byte (128 + n mod 64)]
  else [byte (224 + n / 4096); byte (128 + (n / 64) mod 64); byte (128 + n mod 64)].

Definition quote : ascii := "034"%char.
Definition backslash : ascii := "092"%char.

(** The character a two-character escape stands for. *)
Definition escape (e : ascii) : option ascii :=
  if Ascii.eqb e quote then Some quote
  else if Ascii.eqb e backslash then Some backslash
  else if Ascii.eqb e "/" then Some "/"%char
  else if Ascii.eqb e "b" then Some "008"%char
  else if Ascii.eqb e "f" then Some "012"%char
  else if Ascii.eqb e "n" then Some "010"%char
  else if Ascii.eqb e "r" then Some "013"%char
  else if Ascii.eqb e "t" then Some "009"%char
  else None.

(** The four hexadecimal digits of a [\u] escape. *)
Definition parse_hex4 (l : list ascii) : option (Z * list ascii) :=
  match l with
  | h1 :: h2 :: h3 :: h4 :: r =>
      a ← hex_val h1; b ← hex_val h2; c ← hex_val h3; d ← hex_val h4;
      Some (4096 * a + 256 * b + 16 * c + d, r)
  | _ => None
  end.

(** The characters after an opening quote up to the closing one.  Control
    characters below U+0020 may not appear unescaped. *)
Fixpoint parse_chars (l : list ascii) (acc : list ascii) : option (string * list ascii) :=
  match l with
  | [] => None
  | c :: r =>
      if Ascii.eqb c quote then Some (string_of_list_ascii (rev acc), r)
      else if Ascii.eqb c backslash then
        match r with
        | e :: r' =>
            if Ascii.eqb e "u" then
              match r' with
              | h1 :: h2 :: h3 :: h4 :: r'' =>
                  match parse_hex4 r' with
                  | Some (n, _) => parse_chars r'' (rev (encode_unit n) ++ acc)
                  | None => None
                  end
              | _ => None
              end
            else
              match escape e with
              | Some x => parse_chars r' (x :: acc)
              | None => None
              end
        | [] => None
        end
      else if (nat_of_ascii c <? 32)%nat then None
      else parse_chars r (c :: acc)
  end.

(** [strip lit l]: what follows the literal [lit] at the head of [l]. *)
Fixpoint strip (lit l : list ascii) : option (list ascii) :=
  match lit, l with
  | [], _ => Some l
  | a :: lit', b :: l' => if Ascii.eqb a b then strip lit' l' else None
  | _ :: _, [] => None
  end.

(** [null], [true], [false], or a number. *)
Definition parse_literal (l : list ascii) : option (JSValue * list ascii) :=
  match strip (list_ascii_of_string "null") l with
  | Some r => Some (JNull, r)
  | None =>
      match strip (list_ascii_of_string "true") l with
      | Some r => Some (JBool true, r)
      | None =>
          match strip (list_ascii_of_string "false") l with
          | Some r => Some (JBool false, r)
          | None => parse_number l
          end
      end
  end.

(** [parse_value fuel l] reads one value at the head of [l] (leading white
    space already skipped).  Each level of nesting and each element of an
    array or member of an object spends one unit of fuel and at least one
    character, so the length of the text is always enough fuel
    ([JSONFacts.parse_value_fuel]). *)
Fixpoint parse_value (fuel : nat) (l : list ascii) : option (JSValue * list ascii) :=
  match fuel with
  | O => None
  | S fuel =>
      match l with
      | c :: r =>
          if Ascii.eqb c "[" then
            match skip_ws r with
            | c' :: r' =>
                if Ascii.eqb c' "]" then Some (JArray [], r')
                else parse_elements fuel (skip_ws r) []
            | [] => None
            end
          else if Ascii.eqb c "{" then
            match skip_ws r with
            | c' :: r' =>
                if Ascii.eqb c' "}" then Some (JObject [], r')
                else parse_members fuel (skip_ws r) []
            | [] => None
            end
          else if Ascii.eqb c quote then
            '(s, r') ← parse_chars r []; Some (JString s, r')
          else parse_literal l
      | [] => None
      end
  end
with parse_elements (fuel : nat) (l : list ascii) (acc : list JSValue)
  : option (JSValue * list ascii) :=
  match fuel with
  | O => None
  | S fuel =>
      '(v, r) ← parse_value fuel l;
      match skip_ws r with
      | c :: r' =>
          if Ascii.eqb c "," then parse_elements fuel (skip_ws r') (v :: acc)
          else if Ascii.eqb c "]" then Some (JArray (rev (v :: acc)), r')
          else None
      | [] => None
      end
  end
with parse_members (fuel : nat) (l : list ascii) (acc : list (string * JSValue))
  : option (JSValue * list ascii) :=
  match fuel with
  | O => None
  | S fuel =>
      match l with
      | c :: r0 =>
          if Ascii.eqb c quote then
            '(k, r1) ← parse_chars r0 [];
            match skip_ws r1 with
            | c1 :: r2 =>
                if Ascii.eqb c1 ":" then
                  '(v, r3) ← parse_value fuel (skip_ws r2);
                  match skip_ws r3 with
                  | c3 :: r' =>
                      if Ascii.eqb c3 "," then parse_members fuel (skip_ws r') ((k, v) :: acc)
                      else if Ascii.eqb c3 "}" then Some (JObject (rev ((k, v) :: acc)), r')
                      else None
                  | [] => None
                  end
                else None
            | [] => None
            end
          else None
      | [] => None
      end
  end.

(** [JSON.parse(text)]: one value, white space allowed around it, nothing
    else. *)
Definition parse (text : string) : option JSValue :=
  let l := list_ascii_of_string text in
  '(v, r) ← parse_value (S (length l)) (skip_ws l);
  match skip_ws r with
  | [] => Some v
  | _ => None
  end.

(** What one unit of fuel buys: a result obtained with some fuel consumes at
    least one character, and is obtained again with any fuel that is at least
    the number of characters consumed. *)
Definition adequate {A} (f : nat → list ascii → A → option (JSValue * list ascii))
    (m : nat) : Prop :=
  ∀ l a v r, f m l a = Some (v, r) →
    (length r < length l)%nat
    ∧ ∀ n, (length l - length r ≤ n)%nat → f n l a = Some (v, r).

End JSON.

(** ** The host application

    What the module reaches through [brackets.getModule] and the global
    [path]: code and string tables that live outside this file. *)
Class Host := {
  (** [path.join(dir, name)] *)
  path_join : string → string → string;
  (** [ProjectManager.getProjectRelativeOrDisplayPath(fullPath)], which
      depends on the project root current at the time of the call *)
  getProjectRelativeOrDisplayPath : string → string → string;
  (** [StringUtils.format(template, arg)] *)
  StringUtils_format : string → string → string;
  (** [Strings.HTML_LINT_NAME] *)
  HTML_LINT_NAME : string;
  (** [Strings.HTML_LINT_CONFIG_JSON_ERROR] *)
  HTML_LINT_CONFIG_JSON_ERROR : string;
  (** [Strings.HTML_LINT_CONFIG_UNSUPPORTED] *)
  HTML_LINT_CONFIG_UNSUPPORTED : string;
  (** [FileSystemError.NOT_FOUND] *)
  NOT_FOUND : string
}.

(** ** Data *)

(** [CodeInspection.Type] *)
Inductive InspectionType := META | WARNING | ERROR.

(** An editor position [{line, ch}]. *)
Record Pos := { line : Z; ch : Z }.

(** One entry of the [errors] array handed to CodeInspection.  A property the
    object literal does not have is [None]. *)
Record Diagnostic := {
  pos : Pos;
  endPos : option Pos;
  message : JSValue;
  type : InspectionType;
  moreInfoURL : option string
}.

(** One raw finding of the worker; [ruleUrl] may be missing. *)
Record Finding := {
  start : Z;
  end_ : Z;
  finding_message : string;
  ruleId : string;
  severity : Z;
  ruleUrl : option string
}.

(** What the module uses of the object [EditorManager.getCurrentFullEditor()]
    returns: [editor.document.file.fullPath] and [editor.posFromIndex]. *)
Record Editor := {
  document_file_fullPath : string;
  posFromIndex : Z → Pos
}.

(** A promise: pending, or settled once and for all. *)
Inductive Promise (A E : Type) :=
| Pending
| Fulfilled (value : A)
| Rejected (reason : E).
Arguments Pending {A E}.
Arguments Fulfilled {A E} value.
Arguments Rejected {A E} reason.

(** [resolve(v)] and [reject(e)] of a promise executor: the first call
    settles the promise, later calls do nothing. *)
Definition resolve {A E} (v : A) (p : Promise A E) : Promise A E :=
  match p with
  | Pending => Fulfilled v
  | _ => p
  end.

Definition reject {A E} (e : E) (p : Promise A E) : Promise A E :=
  match p with
  | Pending => Rejected e
  | _ => p
  end.

(** The value [lintOneFile] resolves with: [undefined] or [{errors: [...]}]. *)
Inductive LintValue :=
| LUndefined
| LErrors (errors : list Diagnostic).

(** The promise [lintOneFile] returns; a rejection carries the message of the
    [Error]. *)
Abbreviation LintPromise := (Promise LintValue string).

(** What [DocumentManager.getDocumentForPath] ends with: [done(configDoc)],
    of which the module reads [configDoc.getText()], or [fail(err)]. *)
Inductive DocResult :=
| DocDone (content : string)
| DocFail (err : string).

(** What [FileSystem.existsAsync] ends with. *)
Inductive ExistsResult :=
| ExistsResolved (exists_ : bool)
| ExistsRejected.

(** What [IndexingWorker.execPeer] ends with; a [lintResult] that is not an
    array ([null], [undefined]) is [None]. *)
Inductive PeerResult :=
| PeerResolved (lintResult : option (list Finding))
| PeerRejected.

(** The calls the module makes into the host, logged newest first. *)
Inductive HostCall :=
| requestRun (name : string)
| countEvent (category label : string)
| getDocumentForPath (path : string)
| existsAsync (path : string)
| execPeer (text filePath : string) (configID : Z) (config : JSValue).

(** A suspended computation, with the variables its continuation closes
    over. *)
Inductive Task :=
(** [_readConfig(dir)] waits for [getDocumentForPath(configFilePath)]; the
    promise it returned belongs to the reload that called it, whose
    [scanningProjectPath] is [dir] *)
| TGetDocument (dir configFilePath displayPath : string)
(** the promise of [_readConfig] is settled and the reaction registered by
    [_reloadOptions] ([then] or [catch]) is queued *)
| TReaction (scanningProjectPath : string) (settled : Promise JSValue string)
(** [_validateUnsupportedConfig] waits at [await existsAsync] for
    [unsupportedFileName]; [rest] are the names the loop has yet to visit *)
| TExists (scanningProjectPath : string) (unsupportedFileName : string) (rest : list string)
(** [lintOneFile] waits for [execPeer]; [promise] is the promise it returned *)
| TExecPeer (promise : nat) (fullPath : string).

(** The module-level variables, the host state the module reads, the log of
    calls into the host, and the suspended computations. *)
Record State := {
  projectSpecificOptions : JSValue;
  configErrorMessage : JSValue;
  (** a Number that only ever counts up from 0 by one: an integer *)
  configID : Z;
  (** [ProjectManager.getProjectRoot().fullPath] *)
  projectRoot : string;
  (** [EditorManager.getCurrentFullEditor()] *)
  currentFullEditor : option Editor;
  hostLog : list HostCall;
  pending : gmap nat Task;
  promises : gmap nat LintPromise;
  nextId : nat
}.

(** [let projectSpecificOptions, configErrorMessage, configID = 0;] *)
Definition initial (root : string) (editor : option Editor) : State :=
  {| projectSpecificOptions := JUndefined;
     configErrorMessage := JUndefined;
     configID := 0;
     projectRoot := root;
     currentFullEditor := editor;
     hostLog := [];
     pending := ∅;
     promises := ∅;
     nextId := 0 |}.

Definition set_projectSpecificOptions (v : JSValue) (s : State) : State :=
  {| projectSpecificOptions := v;
     configErrorMessage := configErrorMessage s;
     configID := configID s;
     projectRoot := projectRoot s;
     currentFullEditor := currentFullEditor s;
     hostLog := hostLog s;
     pending := pending s;
     promises := promises s;
     nextId := nextId s |}.

Definition set_configErrorMessage (v : JSValue) (s : State) : State :=
  {| projectSpecificOptions := projectSpecificOptions s;
     configErrorMessage := v;
     configID := configID s;
     projectRoot := projectRoot s;
     currentFullEditor := currentFullEditor s;
     hostLog := hostLog s;
     pending := pending s;
     promises := promises s;
     nextId := nextId s |}.

(** [configID++] *)
Definition incr_configID (s : State) : State :=
  {| projectSpecificOptions := projectSpecificOptions s;
     configErrorMessage := configErrorMessage s;
     configID := configID s + 1;
     projectRoot := projectRoot s;
     currentFullEditor := currentFullEditor s;
     hostLog := hostLog s;
     pending := pending s;
     promises := promises s;
     nextId := nextId s |}.

Definition set_projectRoot (r : string) (s : State) : State :=
  {| projectSpecificOptions := projectSpecificOptions s;
     configErrorMessage := configErrorMessage s;
     configID := configID s;
     projectRoot := r;
     currentFullEditor := currentFullEditor s;
     hostLog := hostLog s;
     pending := pending s;
     promises := promises s;
     nextId := nextId s |}.

Definition set_currentFullEditor (e : option Editor) (s : State) : State :=
  {| projectSpecificOptions := projectSpecificOptions s;
     configErrorMessage := configErrorMessage s;
     configID := configID s;
     projectRoot := projectRoot s;
     currentFullEditor := e;
     hostLog := hostLog s;
     pending := pending s;
     promises := promises s;
     nextId := nextId s |}.

(** A call into the host. *)
Definition call (c : HostCall) (s : State) : State :=
  {| projectSpecificOptions := projectSpecificOptions s;
     configErrorMessage := configErrorMessage s;
     configID := configID s;
     projectRoot := projectRoot s;
     currentFullEditor := currentFullEditor s;
     hostLog := c :: hostLog s;
     pending := pending s;
     promises := promises s;
     nextId := nextId s |}.

Definition set_pending (m : gmap nat Task) (s : State) : State :=
  {| projectSpecificOptions := projectSpecificOptions s;
     configErrorMessage := configErrorMessage s;
     configID := configID s;
     projectRoot := projectRoot s;
     currentFullEditor := currentFullEditor s;
     hostLog := hostLog s;
     pending := m;
     promises := promises s;
     nextId := nextId s |}.

Definition set_promises (m : gmap nat LintPromise) (s : State) : State :=
  {| projectSpecificOptions := projectSpecificOptions s;
     configErrorMessage := configErrorMessage s;
     configID := configID s;
     projectRoot := projectRoot s;
     currentFullEditor := currentFullEditor s;
     hostLog := hostLog s;
     pending := pending s;
     promises := m;
     nextId := nextId s |}.

(** A fresh identifier for a promise or a suspended computation. *)
Definition fresh (s : State) : nat * State :=
  (nextId s,
   {| projectSpecificOptions := projectSpecificOptions s;
      configErrorMessage := configErrorMessage s;
      configID := configID s;
      projectRoot := projectRoot s;
      currentFullEditor := currentFullEditor s;
      hostLog := hostLog s;
      pending := pending s;
      promises := promises s;
      nextId := S (nextId s) |}).

(** Suspend under [id] until the host completes the operation. *)
Definition suspend (id : nat) (t : Task) (s : State) : State :=
  set_pending (<[id := t]> (pending s)) s.

(** Apply [resolve] or [reject] to the promise [id]. *)
Definition settle (id : nat) (f : LintPromise → LintPromise) (s : State) : State :=
  set_promises (alter f id (promises s)) s.

Definition is_requestRun (c : HostCall) : bool :=
  match c with
  | requestRun _ => true
  | _ => false
  end.

(** How often [CodeInspection.requestRun] was called. *)
Definition requestRuns (s : State) : nat :=
  length (List.filter is_requestRun (hostLog s)).

(** ** The module *)

Definition CONFIG_FILE_NAME : string := ".htmlvalidate.json".
Definition UNSUPPORTED_CONFIG_FILES : list string :=
  [".htmlvalidate.js"; ".htmlvalidate.cjs"]%string.

Definition getTypeFromSeverity (sev : Z) : InspectionType :=
  match sev with
  | 1 => WARNING
  | 2 => ERROR
  | _ => META
  end.

Definition _getLinterConfigFileErrorMsg (s : State) : list Diagnostic :=
  [ {| pos := {| line := -1; ch := 0 |};
       endPos := None;
       message := configErrorMessage s;
       type := ERROR;
       moreInfoURL := None |} ].

(** The object the [map] callback of [lintOneFile] builds from one finding. *)
Definition toDiagnostic (editor : Editor) (lintError : Finding) : Diagnostic :=
  {| pos := posFromIndex editor (start lintError);
     endPos := Some (posFromIndex editor (end_ lintError));
     message := JString (finding_message lintError +:+ " (" +:+ ruleId lintError +:+ ")");
     type := getTypeFromSeverity (severity lintError);
     moreInfoURL := ruleUrl lintError |}.

Fixpoint _isFileInArray_loop (pathToMatch : string) (filePathArray : list string) : bool :=
  match filePathArray with
  | filePath :: rest =>
      if String.eqb filePath pathToMatch then true
      else _isFileInArray_loop pathToMatch rest
  | [] => false
  end.

(** [filePathArray] is [None] when the caller passed [undefined] or [null]. *)
Definition _isFileInArray (pathToMatch : string) (filePathArray : option (list string)) : bool :=
  match filePathArray with
  | None => false
  | Some l => _isFileInArray_loop pathToMatch l
  end.

Section HtmlLint.
Context `{Host}.

(** [lintOneFile(text, fullPath)], up to the point where the promise is
    returned: the executor either resolves at once or calls the worker and
    leaves the promise pending. *)
Definition lintOneFile (text fullPath : string) (s : State) : nat * State :=
  let '(promise, s) := fresh s in
  let s := set_promises (<[promise := Pending]> (promises s)) s in
  if ToBoolean (configErrorMessage s) then
    (promise, settle promise (resolve (LErrors (_getLinterConfigFileErrorMsg s))) s)
  else
    (promise,
     suspend promise (TExecPeer promise fullPath)
       (call (execPeer text fullPath (configID s) (projectSpecificOptions s)) s)).

(** The [then] callback of the [execPeer] call. *)
Definition lintOneFile_then (promise : nat) (fullPath : string)
    (lintResult : option (list Finding)) (s : State) : State :=
  let not_active :=
    settle promise
      (reject ("Lint failed as  "
               +:+ getProjectRelativeOrDisplayPath (projectRoot s) fullPath
               +:+ " is not active.")) s in
  match currentFullEditor s with
  | None => not_active
  | Some editor =>
      if negb (String.eqb (document_file_fullPath editor) fullPath) then not_active
      else
        let s :=
          match lintResult with
          | Some ((_ :: _) as findings) =>
              settle promise (resolve (LErrors (map (toDiagnostic editor) findings))) s
          | _ => s
          end in
        settle promise (resolve LUndefined) s
  end.

(** [_readConfig(dir)] up to the call of [getDocumentForPath]. *)
Definition _readConfig (dir : string) (id : nat) (s : State) : State :=
  let configFilePath := path_join dir CONFIG_FILE_NAME in
  let displayPath := getProjectRelativeOrDisplayPath (projectRoot s) configFilePath in
  suspend id (TGetDocument dir configFilePath displayPath)
    (call (getDocumentForPath configFilePath) s).

(** The [done] callback of [_readConfig]. *)
Definition _readConfig_done (displayPath content : string) : Promise JSValue string :=
  match JSON.parse content with
  | Some config => resolve config Pending
  | None => reject (StringUtils_format HTML_LINT_CONFIG_JSON_ERROR displayPath) Pending
  end.

(** The [fail] callback of [_readConfig]. *)
Definition _readConfig_fail (err : string) : Promise JSValue string :=
  if String.eqb err NOT_FOUND then resolve JNull Pending
  else reject "Error reading JSHint Config File"%string Pending.

(** The state of the promise [_readConfig] returned once the read ended. *)
Definition _readConfig_settled (displayPath : string) (r : DocResult)
  : Promise JSValue string :=
  match r with
  | DocDone content => _readConfig_done displayPath content
  | DocFail err => _readConfig_fail err
  end.

(** [_validateUnsupportedConfig] after its loop. *)
Definition _validateUnsupportedConfig_end (scanningProjectPath : string)
    (errorMessage : JSValue) (s : State) : State :=
  if negb (String.eqb scanningProjectPath (projectRoot s)) then s
  else call (requestRun HTML_LINT_NAME) (set_configErrorMessage errorMessage s).

(** The head of the [for] loop of [_validateUnsupportedConfig], with the
    names still to visit: it suspends at [await existsAsync] on the next
    name, or leaves the loop with [errorMessage] still [undefined]. *)
Definition _validateUnsupportedConfig_loop (id : nat) (scanningProjectPath : string)
    (names : list string) (s : State) : State :=
  match names with
  | unsupportedFileName :: rest =>
      suspend id (TExists scanningProjectPath unsupportedFileName rest)
        (call (existsAsync (path_join scanningProjectPath unsupportedFileName)) s)
  | [] => _validateUnsupportedConfig_end scanningProjectPath JUndefined s
  end.

Definition _validateUnsupportedConfig (id : nat) (scanningProjectPath : string)
    (s : State) : State :=
  _validateUnsupportedConfig_loop id scanningProjectPath UNSUPPORTED_CONFIG_FILES s.

(** [_validateUnsupportedConfig] resumed after [await existsAsync].  A
    rejection is thrown out of the function and ends with
    [.catch(console.error)]. *)
Definition _validateUnsupportedConfig_resume (id : nat) (scanningProjectPath : string)
    (unsupportedFileName : string) (rest : list string) (r : ExistsResult)
    (s : State) : State :=
  match r with
  | ExistsResolved true =>
      _validateUnsupportedConfig_end scanningProjectPath
        (JString (StringUtils_format HTML_LINT_CONFIG_UNSUPPORTED unsupportedFileName)) s
  | ExistsResolved false =>
      _validateUnsupportedConfig_loop id scanningProjectPath rest s
  | ExistsRejected => s
  end.

(** [_reloadOptions()] up to the point where it returns. *)
Definition _reloadOptions (s : State) : State :=
  let s := set_projectSpecificOptions JNull s in
  let s := set_configErrorMessage JNull s in
  let scanningProjectPath := projectRoot s in
  let s := incr_configID s in
  let '(id, s) := fresh s in
  _readConfig scanningProjectPath id s.

(** The [then] callback of [_reloadOptions]. *)
Definition _reloadOptions_then (id : nat) (scanningProjectPath : string)
    (config : JSValue) (s : State) : State :=
  let s := incr_configID s in
  if negb (String.eqb scanningProjectPath (projectRoot s)) then s
  else if ToBoolean config then
    let s := call (countEvent "html" "configPresent") s in
    let s := set_projectSpecificOptions config s in
    let s := set_configErrorMessage JNull s in
    call (requestRun HTML_LINT_NAME) s
  else _validateUnsupportedConfig id scanningProjectPath s.

(** The [catch] callback of [_reloadOptions]. *)
Definition _reloadOptions_catch (scanningProjectPath : string) (err : string)
    (s : State) : State :=
  let s := incr_configID s in
  if negb (String.eqb scanningProjectPath (projectRoot s)) then s
  else
    let s := call (countEvent "HTMLConfig" "error") s in
    let s := set_configErrorMessage (JString err) s in
    call (requestRun HTML_LINT_NAME) s.

(** The reaction of [_reloadOptions] to the settled promise of
    [_readConfig]. *)
Definition _reloadOptions_reaction (id : nat) (scanningProjectPath : string)
    (settled : Promise JSValue string) (s : State) : State :=
  match settled with
  | Fulfilled config => _reloadOptions_then id scanningProjectPath config s
  | Rejected err => _reloadOptions_catch scanningProjectPath err s
  | Pending => s
  end.

(** [_projectFileChanged(_evt, changedPath, added, removed)]; [changedPath]
    is [None] when the event carries no path. *)
Definition _projectFileChanged (changedPath : option string)
    (added removed : option (list string)) (s : State) : State :=
  let configFilePath := path_join (projectRoot s) CONFIG_FILE_NAME in
  if match changedPath with
     | Some p => String.eqb p configFilePath
     | None => false
     end
     || _isFileInArray configFilePath added
     || _isFileInArray configFilePath removed
  then _reloadOptions s
  else s.

(** ** The event loop *)

(** How the host completes a suspended computation. *)
Inductive Completion :=
| CDocument (r : DocResult)
| CReaction
| CExists (r : ExistsResult)
| CPeer (r : PeerResult).

Inductive Event :=
(** the active project changes: [getProjectRoot().fullPath] becomes [root] *)
| EvProjectRoot (root : string)
(** the full editor in front changes *)
| EvEditor (editor : option Editor)
(** [EVENT_PROJECT_OPEN], and the call in [AppInit.appReady] *)
| EvProjectOpen
(** [EVENT_PROJECT_PATH_CHANGED_OR_RENAMED] *)
| EvPathChanged (changedPath : option string) (added removed : option (list string))
(** CodeInspection calls [scanFileAsync] *)
| EvScanFile (text fullPath : string)
(** the host completes the computation suspended under [id] *)
| EvComplete (id : nat) (c : Completion).

(** Resume task [t], which was suspended under [id]. *)
Definition resume (id : nat) (t : Task) (c : Completion) (s : State) : option State :=
  match t, c with
  | TGetDocument dir configFilePath displayPath, CDocument r =>
      Some (suspend id (TReaction dir (_readConfig_settled displayPath r)) s)
  | TReaction scanningProjectPath settled, CReaction =>
      Some (_reloadOptions_reaction id scanningProjectPath settled s)
  | TExists scanningProjectPath unsupportedFileName rest, CExists r =>
      Some (_validateUnsupportedConfig_resume id scanningProjectPath
              unsupportedFileName rest r s)
  | TExecPeer promise fullPath, CPeer (PeerResolved lintResult) =>
      Some (lintOneFile_then promise fullPath lintResult s)
  | TExecPeer promise fullPath, CPeer PeerRejected =>
      Some s
  | _, _ => None
  end.

(** One turn of the event loop.  A completion that matches no suspended
    computation is not an event of the program and changes nothing. *)
Definition step (e : Event) (s : State) : State :=
  match e with
  | EvProjectRoot root => set_projectRoot root s
  | EvEditor editor => set_currentFullEditor editor s
  | EvProjectOpen => _reloadOptions s
  | EvPathChanged changedPath added removed =>
      _projectFileChanged changedPath added removed s
  | EvScanFile text fullPath => (lintOneFile text fullPath s).2
  | EvComplete id c =>
      match pending s !! id with
      | Some t =>
          match resume id t c (set_pending (delete id (pending s)) s) with
          | Some s' => s'
          | None => s
          end
      | None => s
      end
  end.

(** An execution: the events of the host, one turn each. *)
Definition run (events : list Event) (s : State) : State :=
  foldl (λ s e, step e s) s events.

(** The states the program can be in: those of the executions that start
    when the module is loaded. *)
Definition reachable (s : State) : Prop :=
  ∃ root editor events, s = run events (initial root editor).

(** Identifiers are handed out in increasing order, and a suspended worker
    call waits under the identifier of its promise, which nothing else can
    settle. *)
Definition consistent (s : State) : Prop :=
  (∀ id t, pending s !! id = Some t → (id < nextId s)%nat)
  ∧ (∀ id p, promises s !! id = Some p → (id < nextId s)%nat)
  ∧ (∀ id promise fullPath,
       pending s !! id = Some (TExecPeer promise fullPath) →
       promise = id ∧ promises s !! promise = Some Pending).

(** The host answers the existence checks of the detector suspended under
    [id], at most [n] of them, from the set [present] of the paths that
    exist, and nothing else happens meanwhile. *)
Fixpoint answer_checks (present : string → bool) (id : nat) (n : nat) (s : State)
  : State :=
  match n with
  | O => s
  | S n =>
      match pending s !! id with
      | Some (TExists scanningProjectPath unsupportedFileName _) =>
          answer_checks present id n
            (step (EvComplete id
                     (CExists (ExistsResolved
                        (present (path_join scanningProjectPath unsupportedFileName)))))
               s)
      | _ => s
      end
  end.

End HtmlLint.


(** ** A host for the examples

    Project roots are directory paths, which end in a slash, and the names
    joined to them are plain file names, so [path.join] is concatenation
    there; the display path is the path relative to the project root when the
    file lies in the project; [StringUtils.format] puts its argument in place
    of every [{0}].  The texts of the string table are stand-ins with one
    placeholder each. *)
Module Sample.

Fixpoint strip_prefix (prefix p : string) : option string :=
  match prefix, p with
  | EmptyString, _ => Some p
  | String a prefix', String b p' =>
      if Ascii.eqb a b then strip_prefix prefix' p' else None
  | String _ _, EmptyString => None
  end.

Definition relative_or_display (root fullPath : string) : string :=
  match strip_prefix root fullPath with
  | Some rel => rel
  | None => fullPath
  end.

Fixpoint format (template arg : string) : string :=
  match template with
  | String "{" (String "0" (String "}" rest)) => arg +:+ format rest arg
  | String c rest => String c (format rest arg)
  | EmptyString => EmptyString
  end.

Definition host : Host :=
  {| path_join := String.append;
     getProjectRelativeOrDisplayPath := relative_or_display;
     StringUtils_format := format;
     HTML_LINT_NAME := "HTML";
     HTML_LINT_CONFIG_JSON_ERROR :=
       "Error: Failed to load `{0}`. Check the file for JSON syntax errors";
     HTML_LINT_CONFIG_UNSUPPORTED :=
       "Error: `{0}` config file is not supported. Use `.htmlvalidate.json`";
     NOT_FOUND := "NotFound" |}.

(** An editor on [path] over a document of one line. *)
Definition editor (path : string) : Editor :=
  {| document_file_fullPath := path;
     posFromIndex := λ i, {| line := 0; ch := i |} |}.

(** Executions of the module on this host, in the project [/p/]. *)
Definition execute (events : list Event) : State :=
  run (H := host) events (initial "/p/" None).

Definition finding : Finding :=
  {| start := 1; end_ := 3; finding_message := "bad"; ruleId := "r1";
     severity := 2; ruleUrl := None |}.


(** A reload that ended with a parse error. *)
Definition after_parse_error : State :=
  execute [EvProjectOpen; EvComplete 0 (CDocument (DocDone "{not valid json"));
           EvComplete 0 CReaction].

(** A lint request for [/p/a.html] waiting for the worker. *)
Definition waiting_for_worker : State :=
  execute [EvProjectOpen; EvComplete 0 (CDocument (DocDone "{}"));
           EvComplete 0 CReaction; EvEditor (Some (editor "/p/a.html"));
           EvScanFile "<p>" "/p/a.html"].

(** A reload whose read found no file, before its reaction ran. *)
Definition read_not_found : State :=
  execute [EvProjectOpen; EvComplete 0 (CDocument (DocFail "NotFound"))].

(** A reload whose read found the JSON text [false]. *)
Definition read_false : State :=
  execute [EvProjectOpen; EvComplete 0 (CDocument (DocDone "false"))].

(** A reload whose read found the JSON text [null]. *)
Definition read_null : State :=
  execute [EvProjectOpen; EvComplete 0 (CDocument (DocDone "null"))].

End Sample.

(** ** Counting reloads *)

Definition is_getDocumentForPath (c : HostCall) : bool :=
  match c with
  | getDocumentForPath _ => true
  | _ => false
  end.

(** How many reloads were started: [_reloadOptions] calls [_readConfig], and
    so [getDocumentForPath], exactly once. *)
Definition reloadsStarted (s : State) : nat :=
  length (List.filter is_getDocumentForPath (hostLog s)).

(** The suspended computations of a reload before its reaction to the read. *)
Definition is_read (t : Task) : bool :=
  match t with
  | TGetDocument _ _ _ | TReaction _ _ => true
  | _ => false
  end.

Definition countReads (m : gmap nat Task) : nat :=
  map_fold (λ _ t n, if is_read t then S n else n) 0%nat m.

(** How many reloads wait for their read or for the reaction to it. *)
Definition readsInFlight (s : State) : nat := countReads (pending s).

(** ** More executions on the sample host *)
Module Scenario.

(** A lint request answered at once after a reload that ended with a parse
    error: promise 1 is fulfilled. *)
Definition answered : State :=
  step (H := Sample.host) (EvScanFile "<p>" "/p/a.html") Sample.after_parse_error.

(** Two lint requests waiting for the worker, under 1 and 2. *)
Definition two_requests : State :=
  step (H := Sample.host) (EvScanFile "<q>" "/p/b.html") Sample.waiting_for_worker.

(** Two reloads of [/p/] whose reads have ended, the first with a parse
    error, the second with [{}], and whose reactions are still to run. *)
Definition two_reads : State :=
  Sample.execute [EvProjectOpen; EvProjectOpen;
                  EvComplete 0 (CDocument (DocDone "{not valid json"));
                  EvComplete 1 (CDocument (DocDone "{}"))].

(** A detector waiting for its first existence check. *)
Definition detecting : State :=
  step (H := Sample.host) (EvComplete 0 CReaction) Sample.read_not_found.

(** The module just loaded, with [/p/a.html] in front. *)
Definition editing : State :=
  Sample.execute [EvEditor (Some (Sample.editor "/p/a.html"))].

End Scenario.

(** * Properties *)

(** ** The fuel of [JSON.parse] *)

Module JSONFacts.
Import JSON.

Lemma skip_ws_length (l : list ascii) : (length (skip_ws l) ≤ length l)%nat.
Proof. induction l as [|c r IH]; simpl; [lia|]. case_match; simpl; lia. Qed.

Lemma take_digits_length (l : list ascii) (acc len : Z) :
  (length (take_digits l acc len).2 ≤ length l)%nat.
Proof.
  revert acc len. induction l as [|c r IH]; intros acc len; simpl; [lia|].
  destruct (digit_val c); simpl; [|lia].
  specialize (IH (10 * acc + z) (len + 1)). lia.
Qed.

Lemma parse_int_length (l : list ascii) (v : Z) (r : list ascii) :
  parse_int l = Some (v, r) → (length r < length l)%nat.
Proof.
  destruct l as [|c l]; simpl; [done|].
  destruct (Ascii.eqb c "0"); [intros [= _ <-]; lia|].
  destruct (digit_val c) as [d|]; [|done].
  pose proof (take_digits_length l d 1) as Hlen.
  destruct (take_digits l d 1) as [[v' n] r']. intros [= _ <-]. simpl in Hlen. lia.
Qed.

Lemma parse_frac_length (m : Z) (l : list ascii) (v e : Z) (r : list ascii) :
  parse_frac m l = Some (v, e, r) → (length r ≤ length l)%nat.
Proof.
  destruct l as [|c l]; simpl; [by intros [= _ _ <-]|].
  destruct (Ascii.eqb c "."); [|intros [= _ _ <-]; simpl; lia].
  pose proof (take_digits_length l m 0) as Hlen.
  destruct (take_digits l m 0) as [[v' n] r']. case_match; [done|].
  intros [= _ _ <-]. simpl in Hlen. lia.
Qed.

Lemma parse_sign_length (l : list ascii) : (length (parse_sign l).2 ≤ length l)%nat.
Proof. destruct l as [|c l]; simpl; [lia|]. repeat case_match; simpl; lia. Qed.

Lemma parse_exp_length (l : list ascii) (e : Z) (r : list ascii) :
  parse_exp l = Some (e, r) → (length r ≤ length l)%nat.
Proof.
  destruct l as [|c l]; simpl; [by intros [= _ <-]|].
  destruct (Ascii.eqb c "e" || Ascii.eqb c "E"); [|intros [= _ <-]; simpl; lia].
  pose proof (parse_sign_length l) as Hsign.
  destruct (parse_sign l) as [sgn r1]. simpl in Hsign.
  pose proof (take_digits_length r1 0 0) as Hlen.
  destruct (take_digits r1 0 0) as [[v' n] r']. case_match; [done|].
  intros [= _ <-]. simpl in Hlen. lia.
Qed.

Lemma parse_number_length (l : list ascii) (v : JSValue) (r : list ascii) :
  parse_number l = Some (v, r) → (length r < length l)%nat.
Proof.
  unfold parse_number.
  assert (length (parse_minus l).2 ≤ length l)%nat as Hminus.
  { destruct l as [|c l]; simpl; [lia|]. case_match; simpl; lia. }
  destruct (parse_minus l) as [neg l1]. simpl in Hminus.
  destruct (parse_int l1) as [[i l2]|] eqn:Hint; [|done]. simpl.
  destruct (parse_frac i l2) as [[[m e1] l3]|] eqn:Hfrac; [|done]. simpl.
  destruct (parse_exp l3) as [[e2 l4]|] eqn:Hexp; [|done]. simpl.
  intros [= _ <-].
  apply parse_int_length in Hint. apply parse_frac_length in Hfrac.
  apply parse_exp_length in Hexp. lia.
Qed.

Lemma parse_chars_length (l acc : list ascii) (s : string) (r : list ascii) :
  parse_chars l acc = Some (s, r) → (length r < length l)%nat.
Proof.
  remember (length l) as n eqn:Hn. revert l acc Hn.
  induction n as [n IH] using lt_wf_ind. intros l acc ->.
  destruct l as [|c l]; simpl; [done|].
  destruct (Ascii.eqb c quote); [intros [= _ <-]; lia|].
  destruct (Ascii.eqb c backslash).
  - destruct l as [|e l]; [done|].
    destruct (Ascii.eqb e "u").
    + destruct l as [|h1 [|h2 [|h3 [|h4 l]]]]; try done.
      destruct (parse_hex4 _) as [[k ?]|]; [|done].
      intros Hrec. eapply IH in Hrec; [| |reflexivity]; simpl; simpl in Hrec; lia.
    + destruct (escape e) as [x|]; [|done].
      intros Hrec. eapply IH in Hrec; [| |reflexivity]; simpl; simpl in Hrec; lia.
  - case_match; [done|].
    intros Hrec. eapply IH in Hrec; [| |reflexivity]; simpl; lia.
Qed.

Lemma strip_length (lit l r : list ascii) :
  strip lit l = Some r → (length r + length lit = length l)%nat.
Proof.
  revert l. induction lit as [|a lit IH]; intros l; simpl.
  - intros [= <-]. lia.
  - destruct l as [|b l]; [done|]. case_match; [|done].
    intros Hrec%IH. simpl. lia.
Qed.

Lemma parse_literal_length (l : list ascii) (v : JSValue) (r : list ascii) :
  parse_literal l = Some (v, r) → (length r < length l)%nat.
Proof.
  unfold parse_literal.
  repeat (case_match; [match goal with
                       | Hs : strip _ _ = Some _ |- _ =>
                           apply strip_length in Hs; simpl in Hs
                       end; intros [= _ <-]; lia|]).
  apply parse_number_length.
Qed.

Lemma parse_adequate (m : nat) :
  adequate (λ n l (_ : unit), parse_value n l) m
  ∧ adequate parse_elements m
  ∧ adequate parse_members m.
Proof.
  induction m as [|m (IHv & IHe & IHm)]; [by repeat split|].
  assert (adequate (λ n l (_ : unit), parse_value n l) (S m)) as Hv.
  { intros l [] v r. cbn [parse_value].
    destruct l as [|c l]; [done|].
    destruct (Ascii.eqb c "[") eqn:Hc1.
    { pose proof (skip_ws_length l) as Hws.
      destruct (skip_ws l) as [|c' l'] eqn:Hl; [done|].
      destruct (Ascii.eqb c' "]") eqn:Hc2.
      - intros [= <- <-]. simpl in *. split; [lia|].
        intros [|n] Hn; [lia|]. cbn [parse_value]. by rewrite Hc1, Hl, Hc2.
      - intros Hrec. destruct (IHe _ _ _ _ Hrec) as [Hlen Hfuel].
        simpl in *. split; [lia|].
        intros [|n] Hn; [lia|]. cbn [parse_value]. rewrite Hc1, Hl, Hc2.
        apply Hfuel. simpl. lia. }
    destruct (Ascii.eqb c "{") eqn:Hc2.
    { pose proof (skip_ws_length l) as Hws.
      destruct (skip_ws l) as [|c' l'] eqn:Hl; [done|].
      destruct (Ascii.eqb c' "}") eqn:Hc3.
      - intros [= <- <-]. simpl in *. split; [lia|].
        intros [|n] Hn; [lia|]. cbn [parse_value]. by rewrite Hc1, Hc2, Hl, Hc3.
      - intros Hrec. destruct (IHm _ _ _ _ Hrec) as [Hlen Hfuel].
        simpl in *. split; [lia|].
        intros [|n] Hn; [lia|]. cbn [parse_value]. rewrite Hc1, Hc2, Hl, Hc3.
        apply Hfuel. simpl. lia. }
    destruct (Ascii.eqb c quote) eqn:Hc3.
    { destruct (parse_chars l []) as [[s r']|] eqn:Hs; [|done]. simpl.
      intros [= <- <-]. pose proof (parse_chars_length _ _ _ _ Hs). simpl. split; [lia|].
      intros [|n] Hn; [lia|]. cbn [parse_value]. by rewrite Hc1, Hc2, Hc3, Hs. }
    intros Hlit. pose proof (parse_literal_length _ _ _ Hlit) as Hlen.
    split; [done|].
    intros [|n] Hn; [lia|]. cbn [parse_value]. by rewrite Hc1, Hc2, Hc3. }
  split; [done|]. split.
  - intros l acc v r. cbn [parse_elements].
    destruct (parse_value m l) as [[v1 r1]|] eqn:Hv1; [|done]. simpl.
    destruct (IHv _ tt _ _ Hv1) as [Hlen1 Hfuel1].
    pose proof (skip_ws_length r1) as Hws1.
    destruct (skip_ws r1) as [|c r'] eqn:Hr1; [done|].
    destruct (Ascii.eqb c ",") eqn:Hc1.
    + intros Hrec. destruct (IHe _ _ _ _ Hrec) as [Hlen Hfuel].
      pose proof (skip_ws_length r') as Hws2. simpl in *. split; [lia|].
      intros [|n] Hn; [lia|]. cbn [parse_elements].
      rewrite (Hfuel1 n) by lia. simpl. rewrite Hr1, Hc1. apply Hfuel. lia.
    + destruct (Ascii.eqb c "]") eqn:Hc2; [|done].
      intros [= <- <-]. simpl in *. split; [lia|].
      intros [|n] Hn; [lia|]. cbn [parse_elements].
      rewrite (Hfuel1 n) by lia. simpl. by rewrite Hr1, Hc1, Hc2.
  - intros l acc v r. cbn [parse_members].
    destruct l as [|c l]; [done|].
    destruct (Ascii.eqb c quote) eqn:Hc; [|done].
    destruct (parse_chars l []) as [[k r1]|] eqn:Hk; [|done]. simpl.
    pose proof (parse_chars_length _ _ _ _ Hk) as Hlenk.
    pose proof (skip_ws_length r1) as Hws1.
    destruct (skip_ws r1) as [|c1 r2] eqn:Hr1; [done|].
    destruct (Ascii.eqb c1 ":") eqn:Hc1; [|done].
    pose proof (skip_ws_length r2) as Hws2.
    destruct (parse_value m (skip_ws r2)) as [[v1 r3]|] eqn:Hv1; [|done]. simpl.
    destruct (IHv _ tt _ _ Hv1) as [Hlen1 Hfuel1].
    pose proof (skip_ws_length r3) as Hws3.
    destruct (skip_ws r3) as [|c3 r'] eqn:Hr3; [done|].
    destruct (Ascii.eqb c3 ",") eqn:Hc3.
    + intros Hrec. destruct (IHm _ _ _ _ Hrec) as [Hlen Hfuel].
      pose proof (skip_ws_length r') as Hws4. simpl in *. split; [lia|].
      intros [|n] Hn; [lia|]. cbn [parse_members].
      rewrite Hc, Hk. simpl. rewrite Hr1, Hc1, (Hfuel1 n) by lia. simpl.
      rewrite Hr3, Hc3. apply Hfuel. lia.
    + destruct (Ascii.eqb c3 "}") eqn:Hc4; [|done].
      intros [= <- <-]. simpl in *. split; [lia|].
      intros [|n] Hn; [lia|]. cbn [parse_members].
      rewrite Hc, Hk. simpl. rewrite Hr1, Hc1, (Hfuel1 n) by lia. simpl.
      by rewrite Hr3, Hc3, Hc4.
Qed.

(** The fuel [JSON.parse] starts with is enough: a value that can be read
    with any amount of fuel is read with it. *)
Lemma parse_value_fuel (m : nat) (l : list ascii) (v : JSValue) (r : list ascii) :
  parse_value m l = Some (v, r) → parse_value (S (length l)) l = Some (v, r).
Proof.
  intros Hm. destruct (parse_adequate m) as [Hv _].
  destruct (Hv l tt v r Hm) as [_ Hfuel]. apply Hfuel. lia.
Qed.

(** A text of which some amount of fuel reads one value and nothing else is
    accepted by [JSON.parse]. *)
Lemma parse_complete (text : string) (m : nat) (v : JSValue) (r : list ascii) :
  parse_value m (skip_ws (list_ascii_of_string text)) = Some (v, r) →
  skip_ws r = [] →
  parse text = Some v.
Proof.
  intros Hm Hr. unfold parse.
  destruct (parse_adequate m) as [Hv _].
  destruct (Hv _ tt v r Hm) as [_ Hfuel].
  rewrite Hfuel; [simpl; by rewrite Hr|].
  pose proof (skip_ws_length (list_ascii_of_string text)). lia.
Qed.

End JSONFacts.


Section HtmlLintFacts.
Context `{Host}.

(** ** Executions *)

Lemma run_app (l1 l2 : list Event) (s : State) :
  run (l1 ++ l2) s = run l2 (run l1 s).
Proof. apply foldl_app. Qed.

Lemma run_snoc (l : list Event) (e : Event) (s : State) :
  run (l ++ [e]) s = step e (run l s).
Proof. by rewrite run_app. Qed.

Lemma reachable_initial (root : string) (editor : option Editor) :
  reachable (initial root editor).
Proof. by exists root, editor, []. Qed.

Lemma reachable_step (e : Event) (s : State) :
  reachable s → reachable (step e s).
Proof.
  intros (root & editor & events & ->).
  exists root, editor, (events ++ [e]). by rewrite run_snoc.
Qed.

Lemma reachable_run (events : list Event) (s : State) :
  reachable s → reachable (run events s).
Proof.
  revert s. induction events as [|e events IH]; intros s Hs; [done|].
  apply IH. by apply reachable_step.
Qed.

(** An induction principle for the reachable states. *)
Lemma reachable_ind' (P : State → Prop) :
  (∀ root editor, P (initial root editor)) →
  (∀ e s, reachable s → P s → P (step e s)) →
  ∀ s, reachable s → P s.
Proof.
  intros Hinit Hstep s (root & editor & events & ->).
  induction events as [|e events IH] using rev_ind; [apply Hinit|].
  rewrite run_snoc. apply Hstep; [|done]. by exists root, editor, events.
Qed.


(** ** Identifiers and promises in reachable states *)

Lemma consistent_initial (root : string) (editor : option Editor) :
  consistent (initial root editor).
Proof. repeat split; intros *; simpl; by rewrite ?lookup_empty. Qed.

Lemma consistent_fields (s s' : State) :
  pending s' = pending s → promises s' = promises s → nextId s' = nextId s →
  consistent s → consistent s'.
Proof. unfold consistent. by intros -> -> ->. Qed.

Lemma consistent_unsuspend (id : nat) (s : State) :
  consistent s → consistent (set_pending (delete id (pending s)) s).
Proof.
  intros (Hp & Hq & Hx). split; [|split]; simpl.
  - intros i t [_ Hi]%lookup_delete_Some. eauto.
  - done.
  - intros i p f [_ Hi]%lookup_delete_Some. eauto.
Qed.

(** Suspending again under a known identifier, on anything but a worker
    call. *)
Lemma consistent_suspend (id : nat) (t : Task) (s : State) :
  (id < nextId s)%nat → (∀ p f, t ≠ TExecPeer p f) →
  consistent s → consistent (suspend id t s).
Proof.
  intros Hid Ht (Hp & Hq & Hx). split; [|split]; simpl.
  - intros i t' Hi. apply lookup_insert_Some in Hi as [[<- _]|[_ Hi]]; eauto.
  - done.
  - intros i p f Hi. apply lookup_insert_Some in Hi as [[_ Hi]|[_ Hi]]; [|eauto].
    by destruct (Ht p f).
Qed.

Lemma consistent_reloadOptions (s : State) :
  consistent s → consistent (_reloadOptions s).
Proof.
  intros (Hp & Hq & Hx). split; [|split]; simpl.
  - intros i t Hi. apply lookup_insert_Some in Hi as [[<- _]|[_ Hi]]; [lia|].
    apply Hp in Hi. lia.
  - intros i p Hi. apply Hq in Hi. lia.
  - intros i p f Hi. apply lookup_insert_Some in Hi as [[_ Hi]|[_ Hi]]; [done|eauto].
Qed.

Lemma consistent_validate_end (root : string) (m : JSValue) (s : State) :
  consistent s → consistent (_validateUnsupportedConfig_end root m s).
Proof.
  unfold _validateUnsupportedConfig_end. case_match; [done|].
  by apply consistent_fields.
Qed.

Lemma consistent_validate_loop (id : nat) (root : string) (names : list string)
    (s : State) :
  (id < nextId s)%nat →
  consistent s → consistent (_validateUnsupportedConfig_loop id root names s).
Proof.
  intros Hid Hs. destruct names as [|name rest]; simpl.
  - by apply consistent_validate_end.
  - apply consistent_suspend; [done..|]. by eapply consistent_fields.
Qed.

Lemma consistent_lintOneFile (text fullPath : string) (s : State) :
  consistent s → consistent (lintOneFile text fullPath s).2.
Proof.
  intros (Hp & Hq & Hx). unfold lintOneFile. simpl.
  destruct (ToBoolean (configErrorMessage s)); (split; [|split]); simpl.
  - intros i t Hi. apply Hp in Hi. lia.
  - intros i p Hi. apply lookup_alter_Some in Hi as [(<- & _)|[_ Hi]]; [lia|].
    apply lookup_insert_Some in Hi as [[<- _]|[_ Hi]]; [lia|]. apply Hq in Hi. lia.
  - intros i p f Hi. destruct (Hx _ _ _ Hi) as [-> Hpi]. split; [done|].
    apply Hp in Hi. rewrite lookup_alter_ne, lookup_insert_ne by lia. done.
  - intros i t Hi. apply lookup_insert_Some in Hi as [[<- _]|[_ Hi]]; [lia|].
    apply Hp in Hi. lia.
  - intros i p Hi. apply lookup_insert_Some in Hi as [[<- _]|[_ Hi]]; [lia|].
    apply Hq in Hi. lia.
  - intros i p f Hi. apply lookup_insert_Some in Hi as [[<- Hi]|[_ Hi]].
    + injection Hi as <- _. split; [done|]. by rewrite lookup_insert_eq.
    + destruct (Hx _ _ _ Hi) as [-> Hpi]. split; [done|].
      apply Hp in Hi. by rewrite lookup_insert_ne by lia.
Qed.

Lemma consistent_settle_free (promise : nat) (f : LintPromise → LintPromise)
    (s : State) :
  (∀ id p fp, pending s !! id = Some (TExecPeer p fp) → p ≠ promise) →
  consistent s → consistent (settle promise f s).
Proof.
  intros Hfree (Hp & Hq & Hx). split; [|split]; simpl.
  - done.
  - intros i p Hi. apply lookup_alter_Some in Hi as [(_ & p' & Hi & _)|[_ Hi]]; eauto.
  - intros i p fp Hi. destruct (Hx _ _ _ Hi) as [-> Hpi]. split; [done|].
    rewrite lookup_alter_ne; [done|]. intros ->. by eapply Hfree.
Qed.

Lemma consistent_lintOneFile_then (promise : nat) (fullPath : string)
    (lintResult : option (list Finding)) (s : State) :
  (∀ id p fp, pending s !! id = Some (TExecPeer p fp) → p ≠ promise) →
  consistent s → consistent (lintOneFile_then promise fullPath lintResult s).
Proof.
  intros Hfree Hs. unfold lintOneFile_then.
  repeat case_match; repeat (apply consistent_settle_free; [done|]); done.
Qed.

Lemma consistent_step (e : Event) (s : State) :
  consistent s → consistent (step e s).
Proof.
  intros Hs. destruct e as [root|editor| |changedPath added removed|text fullPath|id c]; simpl.
  - by eapply consistent_fields.
  - by eapply consistent_fields.
  - by apply consistent_reloadOptions.
  - unfold _projectFileChanged. case_match; [by apply consistent_reloadOptions|done].
  - by apply consistent_lintOneFile.
  - destruct (pending s !! id) as [t|] eqn:Ht; [|done].
    pose proof (consistent_unsuspend id s Hs) as Hs0.
    assert (id < nextId s)%nat as Hid by (destruct Hs as [Hp _]; eauto).
    destruct t as [dir cfp dp|root settled|root name rest|promise fullPath],
      c as [r| |r|r]; simpl; try done.
    + by apply consistent_suspend.
    + destruct settled as [|config|err]; simpl; [done| |].
      * unfold _reloadOptions_then. simpl. repeat case_match.
        -- by eapply consistent_fields.
        -- by eapply consistent_fields.
        -- apply consistent_validate_loop; [done|]. by eapply consistent_fields.
      * unfold _reloadOptions_catch. simpl. case_match; by eapply consistent_fields.
    + destruct r as [[]|]; simpl; [ |by apply consistent_validate_loop|done].
      by apply consistent_validate_end.
    + destruct r as [lintResult|]; [|done].
      apply consistent_lintOneFile_then; [|done]. simpl.
      intros i p fp [Hne Hi]%lookup_delete_Some.
      destruct Hs as (_ & _ & Hx).
      destruct (Hx _ _ _ Hi) as [-> _], (Hx _ _ _ Ht) as [-> _]. done.
Qed.

Lemma reachable_consistent (s : State) : reachable s → consistent s.
Proof.
  revert s. apply reachable_ind'.
  - apply consistent_initial.
  - intros e s _. apply consistent_step.
Qed.

(** A computation that is over stays over, and a promise nobody waits to
    settle keeps its state: identifiers are not handed out twice. *)
Lemma retired_step (id : nat) (e : Event) (s : State) :
  consistent s → (id < nextId s)%nat → pending s !! id = None →
  pending (step e s) !! id = None
  ∧ (id < nextId (step e s))%nat
  ∧ promises (step e s) !! id = promises s !! id.
Proof.
  intros (Hp & Hq & Hx) Hid Hnone.
  destruct e as [root|editor| |changedPath added removed|text fullPath|id' c]; simpl.
  - done.
  - done.
  - rewrite lookup_insert_ne by lia. split; [done|]. split; [lia|done].
  - unfold _projectFileChanged. case_match; simpl; [|done].
    rewrite lookup_insert_ne by lia. split; [done|]. split; [lia|done].
  - unfold lintOneFile. simpl. case_match; simpl.
    + rewrite lookup_alter_ne, lookup_insert_ne by lia. split; [done|]. split; [lia|done].
    + rewrite !lookup_insert_ne by lia. split; [done|]. split; [lia|done].
  - destruct (pending s !! id') as [t|] eqn:Ht; [|done].
    assert (id' ≠ id) as Hne by (intros ->; congruence).
    destruct t as [dir cfp dp|root settled|root name rest|promise fullPath],
      c as [r| |r|r]; simpl; try done.
    + by rewrite lookup_insert_ne, lookup_delete_ne.
    + destruct settled as [|config|err]; simpl; [by rewrite lookup_delete_ne| |].
      * unfold _reloadOptions_then, _validateUnsupportedConfig,
          _validateUnsupportedConfig_loop. simpl.
        repeat case_match; simpl;
          rewrite ?lookup_insert_ne, ?lookup_delete_ne by done; done.
      * unfold _reloadOptions_catch. simpl.
        case_match; simpl; by rewrite lookup_delete_ne.
    + unfold _validateUnsupportedConfig_resume, _validateUnsupportedConfig_loop,
        _validateUnsupportedConfig_end.
      repeat case_match; simpl;
        rewrite ?lookup_insert_ne, ?lookup_delete_ne by done; done.
    + destruct (Hx _ _ _ Ht) as [-> _].
      destruct r as [lintResult|]; simpl; [|by rewrite lookup_delete_ne].
      unfold lintOneFile_then.
      repeat case_match; simpl;
        rewrite ?lookup_alter_ne, ?lookup_delete_ne by done; done.
Qed.

Lemma retired_run (id : nat) (events : list Event) (s : State) :
  consistent s → (id < nextId s)%nat → pending s !! id = None →
  pending (run events s) !! id = None
  ∧ promises (run events s) !! id = promises s !! id.
Proof.
  revert s. induction events as [|e events IH]; intros s Hs Hid Hnone; [done|].
  destruct (retired_step id e s Hs Hid Hnone) as (Hnone' & Hid' & Hprom).
  destruct (IH (step e s)) as [IH1 IH2]; [by apply consistent_step|done..|].
  simpl. split; [done|]. by rewrite <- Hprom.
Qed.

Lemma root_differs (a b : string) : a ≠ b → negb (String.eqb a b) = true.
Proof. intros Hne. by apply negb_true_iff, String.eqb_neq. Qed.

Lemma root_matches (a : string) : negb (String.eqb a a) = false.
Proof. by rewrite String.eqb_refl. Qed.

(** ** Stale continuations *)

(** The reaction to the settled read, run when the project root is no
    longer the captured one, only counts the generation up. *)
Lemma reaction_stale (id : nat) (root : string) (settled : Promise JSValue string)
    (s : State) :
  settled ≠ Pending → projectRoot s ≠ root →
  _reloadOptions_reaction id root settled s = incr_configID s.
Proof.
  intros Hsettled Hroot.
  destruct settled as [|config|err]; [done|..]; simpl.
  - unfold _reloadOptions_then. simpl. by rewrite root_differs.
  - unfold _reloadOptions_catch. simpl. by rewrite root_differs.
Qed.


(** The resumption of the detector that stays in its loop makes the next
    existence check and touches nothing else; it does not look at the project
    root. *)
Lemma detector_next_check (id : nat) (root name next : string) (rest : list string)
    (s : State) :
  pending s !! id = Some (TExists root name (next :: rest)) →
  let s' := step (EvComplete id (CExists (ExistsResolved false))) s in
  pending s' !! id = Some (TExists root next rest)
  ∧ hostLog s' = existsAsync (path_join root next) :: hostLog s
  ∧ projectSpecificOptions s' = projectSpecificOptions s
  ∧ configErrorMessage s' = configErrorMessage s
  ∧ configID s' = configID s.
Proof.
  intros Ht. simpl. rewrite Ht. simpl. by rewrite lookup_insert_eq.
Qed.


(** ** Lint requests *)

Lemma lintOneFile_id (text fullPath : string) (s : State) :
  (lintOneFile text fullPath s).1 = nextId s
  ∧ nextId (lintOneFile text fullPath s).2 = S (nextId s).
Proof. unfold lintOneFile. simpl. by case_match. Qed.

(** C2. A lint request submitted while ConfigErrorMessage is set (truthy)
    resolves at once with exactly one diagnostic: its message is that
    ConfigErrorMessage, its type is ERROR and its position is line -1,
    column 0; the call makes no call into the host and suspends nothing, so
    the worker is not invoked for the request, and the promise keeps this
    result whatever happens afterwards. *)
Theorem config_error_short_circuits (text fullPath : string) (s : State)
    (events : list Event) :
  reachable s →
  ToBoolean (configErrorMessage s) = true →
  let promise := (lintOneFile text fullPath s).1 in
  let s' := (lintOneFile text fullPath s).2 in
  let result :=
    Fulfilled (LErrors [ {| pos := {| line := -1; ch := 0 |};
                           endPos := None;
                           message := configErrorMessage s;
                           type := ERROR;
                           moreInfoURL := None |} ]) in
  promises s' !! promise = Some result
  ∧ hostLog s' = hostLog s
  ∧ pending s' = pending s
  ∧ pending (run events s') !! promise = None
  ∧ promises (run events s') !! promise = Some result.
Proof.
  intros Hreach Hset promise s' result.
  pose proof (reachable_consistent s Hreach) as Hs.
  assert (consistent s') as Hs' by (by apply consistent_lintOneFile).
  destruct (lintOneFile_id text fullPath s) as [Hid Hnext].
  fold promise in Hid. fold s' in Hnext.
  assert (promises s' !! promise = Some result
          ∧ hostLog s' = hostLog s ∧ pending s' = pending s) as (Hres & Hlog & Hpend).
  { subst promise s' result. unfold lintOneFile. simpl. rewrite Hset. simpl.
    by rewrite lookup_alter_eq, lookup_insert_eq. }
  assert (pending s' !! promise = None) as Hnone.
  { rewrite Hpend, Hid. destruct Hs as [Hp _].
    destruct (pending s !! nextId s) as [t|] eqn:Ht; [|done].
    apply Hp in Ht. lia. }
  destruct (retired_run promise events s') as [Hr1 Hr2]; [done|lia|done|].
  repeat split; try done. by rewrite Hr2.
Qed.

(** C4. When the response of the worker arrives while there is no current
    full editor, or while the document of the current full editor is not
    the file of the request, the promise of the request is rejected with
    the error that the file is not active; it carries no diagnostics, then
    or later, and the configuration state is untouched. *)
Theorem stale_response_is_rejected (s : State) (id promise : nat)
    (fullPath : string) (lintResult : option (list Finding))
    (events : list Event) :
  reachable s →
  pending s !! id = Some (TExecPeer promise fullPath) →
  match currentFullEditor s with
  | None => True
  | Some editor => document_file_fullPath editor ≠ fullPath
  end →
  let s' := step (EvComplete id (CPeer (PeerResolved lintResult))) s in
  let error :=
    Rejected ("Lint failed as  "
              +:+ getProjectRelativeOrDisplayPath (projectRoot s) fullPath
              +:+ " is not active.") in
  promises s' !! promise = Some error
  ∧ promises (run events s') !! promise = Some error
  ∧ projectSpecificOptions s' = projectSpecificOptions s
  ∧ configErrorMessage s' = configErrorMessage s
  ∧ hostLog s' = hostLog s.
Proof.
  intros Hreach Ht Heditor s' error.
  pose proof (reachable_consistent s Hreach) as Hs.
  destruct Hs as (Hp & Hq & Hx).
  destruct (Hx _ _ _ Ht) as [-> Hpending].
  assert (s' = settle id (reject ("Lint failed as  "
            +:+ getProjectRelativeOrDisplayPath (projectRoot s) fullPath
            +:+ " is not active.")) (set_pending (delete id (pending s)) s)) as Hs'.
  { subst s'. simpl. rewrite Ht. simpl. unfold lintOneFile_then. simpl.
    destruct (currentFullEditor s) as [editor|]; [|done].
    by rewrite root_differs. }
  assert (promises s' !! id = Some error) as Hres.
  { rewrite Hs'. simpl. by rewrite lookup_alter_eq, Hpending. }
  destruct (retired_run id events s') as [_ Hr]; [| | |].
  - apply consistent_step. by apply reachable_consistent.
  - rewrite Hs'. simpl. eauto.
  - rewrite Hs'. simpl. apply lookup_delete_eq.
  - repeat split; [done|by rewrite Hr|by rewrite Hs'..].
Qed.

(** A request submitted while no ConfigErrorMessage is set reaches the
    worker: [execPeer] is called with the text, the path, the current
    generation and the current ProjectConfig, and the promise is pending
    until the worker answers. *)
Lemma lintOneFile_dispatch (text fullPath : string) (s : State) :
  ToBoolean (configErrorMessage s) = false →
  let promise := (lintOneFile text fullPath s).1 in
  let s' := (lintOneFile text fullPath s).2 in
  hostLog s' = execPeer text fullPath (configID s) (projectSpecificOptions s) :: hostLog s
  ∧ pending s' !! promise = Some (TExecPeer promise fullPath)
  ∧ promises s' !! promise = Some Pending.
Proof.
  intros Hunset. unfold lintOneFile. simpl. rewrite Hunset. simpl.
  by rewrite !lookup_insert_eq.
Qed.

Lemma toDiagnostic_lookup (editor : Editor) (findings : list Finding) (i : nat)
    (lintError : Finding) :
  findings !! i = Some lintError →
  map (toDiagnostic editor) findings !! i = Some (toDiagnostic editor lintError).
Proof. intros Hi. change map with (@fmap list _). by rewrite list_lookup_fmap, Hi. Qed.

(** C7. When the response of the worker arrives while the document of the
    current full editor is the file of the request: a response without
    findings resolves the promise with [undefined]; otherwise the promise
    resolves with one diagnostic per finding, in order, whose positions are
    the editor's [posFromIndex] of the finding's [start] and [end], whose
    message is the finding's message, a space and the rule id in
    parentheses, whose type is WARNING for severity 1, ERROR for severity 2
    and META for any other severity, and whose [moreInfoURL] is the
    finding's [ruleUrl]. *)
Theorem active_response_is_converted (s : State) (id promise : nat)
    (fullPath : string) (lintResult : option (list Finding)) (editor : Editor) :
  reachable s →
  pending s !! id = Some (TExecPeer promise fullPath) →
  currentFullEditor s = Some editor →
  document_file_fullPath editor = fullPath →
  let s' := step (EvComplete id (CPeer (PeerResolved lintResult))) s in
  match lintResult with
  | None | Some [] => promises s' !! promise = Some (Fulfilled LUndefined)
  | Some findings =>
      ∃ errors,
        promises s' !! promise = Some (Fulfilled (LErrors errors))
        ∧ length errors = length findings
        ∧ ∀ i lintError, findings !! i = Some lintError →
            ∃ d, errors !! i = Some d
              ∧ pos d = posFromIndex editor (start lintError)
              ∧ endPos d = Some (posFromIndex editor (end_ lintError))
              ∧ message d = JString (finding_message lintError +:+ " ("
                                     +:+ ruleId lintError +:+ ")")
              ∧ (severity lintError = 1 → type d = WARNING)
              ∧ (severity lintError = 2 → type d = ERROR)
              ∧ (severity lintError ≠ 1 → severity lintError ≠ 2 → type d = META)
              ∧ moreInfoURL d = ruleUrl lintError
  end.
Proof.
  intros Hreach Ht Heditor Hpath s'.
  destruct (reachable_consistent s Hreach) as (_ & _ & Hx).
  destruct (Hx _ _ _ Ht) as [-> Hpending].
  subst s'. simpl. rewrite Ht. simpl. unfold lintOneFile_then. simpl.
  rewrite Heditor, Hpath, root_matches.
  destruct lintResult as [[|lintError findings]|]; simpl.
  - by rewrite lookup_alter_eq, Hpending.
  - exists (map (toDiagnostic editor) (lintError :: findings)).
    split; [|split].
    + by rewrite !lookup_alter_eq, Hpending.
    + by rewrite length_map.
    + intros i f Hi. exists (toDiagnostic editor f).
      split; [by apply toDiagnostic_lookup|]. simpl.
      repeat split; try done.
      * by intros ->.
      * by intros ->.
      * intros H1 H2. unfold getTypeFromSeverity.
        destruct (severity f) as [|[p|[p|p|]|]|]; done.
  - by rewrite lookup_alter_eq, Hpending.
Qed.

(** C10. When the call of the worker fails, nothing of the module runs: the
    promise of the request, pending until then, stays pending whatever
    happens afterwards, so the request yields neither diagnostics nor an
    error, and no variable of the module and no promise changes, and no
    call into the host is made. *)
Theorem backend_failure_leaves_promise_pending (s : State) (id promise : nat)
    (fullPath : string) (events : list Event) :
  reachable s →
  pending s !! id = Some (TExecPeer promise fullPath) →
  let s' := step (EvComplete id (CPeer PeerRejected)) s in
  promises s !! promise = Some Pending
  ∧ promises (run events s') !! promise = Some Pending
  ∧ promises s' = promises s
  ∧ projectSpecificOptions s' = projectSpecificOptions s
  ∧ configErrorMessage s' = configErrorMessage s
  ∧ configID s' = configID s
  ∧ hostLog s' = hostLog s
  ∧ pending s' = delete id (pending s).
Proof.
  intros Hreach Ht s'.
  pose proof (reachable_consistent s Hreach) as Hs.
  destruct Hs as (Hp & Hq & Hx).
  destruct (Hx _ _ _ Ht) as [-> Hpending].
  assert (s' = set_pending (delete id (pending s)) s) as Hs'.
  { subst s'. simpl. by rewrite Ht. }
  destruct (retired_run id events s') as [_ Hr].
  - apply consistent_step. by apply reachable_consistent.
  - rewrite Hs'. simpl. eauto.
  - rewrite Hs'. simpl. apply lookup_delete_eq.
  - rewrite Hr, Hs'. done.
Qed.

#[local] Set Warnings "-clear-no-such-hyp".

(** ** The configuration loader *)

(** C3, amended. The promise of the loader always settles, in exactly one
    way: it resolves with the parsed value when the file was read and its
    text is valid JSON; it resolves with null when the read failed with the
    not-found error, and otherwise only when the file was read and its JSON
    text is itself [null]; it is rejected with the formatted
    HTML_LINT_CONFIG_JSON_ERROR message for the display path when the text
    is not valid JSON, and with a fixed message on any other read error. *)
Theorem readConfig_outcomes (dir : string) (id : nat) (s : State) (r : DocResult) :
  let configFilePath := path_join dir CONFIG_FILE_NAME in
  let displayPath := getProjectRelativeOrDisplayPath (projectRoot s) configFilePath in
  let s1 := _readConfig dir id s in
  let s2 := step (EvComplete id (CDocument r)) s1 in
  hostLog s1 = getDocumentForPath configFilePath :: hostLog s
  ∧ ∃ settled,
      pending s2 !! id = Some (TReaction dir settled)
      ∧ settled ≠ Pending
      ∧ (∀ content config,
           r = DocDone content → JSON.parse content = Some config →
           settled = Fulfilled config)
      ∧ (r = DocFail NOT_FOUND → settled = Fulfilled JNull)
      ∧ (settled = Fulfilled JNull ↔
           r = DocFail NOT_FOUND
           ∨ ∃ content, r = DocDone content ∧ JSON.parse content = Some JNull)
      ∧ (∀ content,
           r = DocDone content → JSON.parse content = None →
           settled = Rejected (StringUtils_format HTML_LINT_CONFIG_JSON_ERROR displayPath))
      ∧ (∀ err,
           r = DocFail err → err ≠ NOT_FOUND →
           settled = Rejected "Error reading JSHint Config File"%string).
Proof.
  intros configFilePath displayPath s1 s2. split; [done|].
  exists (_readConfig_settled displayPath r).
  split.
  { subst s2 s1. simpl. rewrite lookup_insert_eq. simpl.
    by rewrite lookup_insert_eq. }
  destruct r as [content|err]; simpl.
  - unfold _readConfig_done.
    destruct (JSON.parse content) as [config|] eqn:Hparse; simpl; naive_solver.
  - unfold _readConfig_fail.
    destruct (String.eqb err NOT_FOUND) eqn:Herr; simpl;
      [apply String.eqb_eq in Herr as ->|apply String.eqb_neq in Herr];
      naive_solver.
Qed.

(** ** The change-event router *)

Lemma _isFileInArray_loop_elem (pathToMatch : string) (filePathArray : list string) :
  _isFileInArray_loop pathToMatch filePathArray = true ↔ pathToMatch ∈ filePathArray.
Proof.
  induction filePathArray as [|filePath rest IH]; simpl.
  - split; [done|]. by intros ?%elem_of_nil.
  - rewrite elem_of_cons. destruct (String.eqb filePath pathToMatch) eqn:Heq.
    + apply String.eqb_eq in Heq as ->. naive_solver.
    + apply String.eqb_neq in Heq. naive_solver.
Qed.

Lemma _isFileInArray_elem (pathToMatch : string) (filePathArray : option (list string)) :
  _isFileInArray pathToMatch filePathArray = true
  ↔ ∃ l, filePathArray = Some l ∧ pathToMatch ∈ l.
Proof.
  destruct filePathArray as [l|]; simpl.
  - rewrite _isFileInArray_loop_elem. naive_solver.
  - naive_solver.
Qed.

Lemma _reloadOptions_changes (s : State) : _reloadOptions s ≠ s.
Proof.
  intros Heq. apply (f_equal configID) in Heq. simpl in Heq. lia.
Qed.

(** C8. A change notification starts a reload exactly when the path of the
    configuration file, the current project root joined with
    [.htmlvalidate.json], is the changed path or is among the added or the
    removed paths; any other notification leaves the state as it is. *)
Theorem reload_iff_config_file_affected (changedPath : option string)
    (added removed : option (list string)) (s : State) :
  let configFilePath := path_join (projectRoot s) CONFIG_FILE_NAME in
  let affected :=
    changedPath = Some configFilePath
    ∨ (∃ l, added = Some l ∧ configFilePath ∈ l)
    ∨ (∃ l, removed = Some l ∧ configFilePath ∈ l) in
  let s' := step (EvPathChanged changedPath added removed) s in
  (affected ↔ s' = _reloadOptions s)
  ∧ (¬ affected ↔ s' = s)
  ∧ (affected ↔ hostLog s' = getDocumentForPath configFilePath :: hostLog s).
Proof.
  intros configFilePath affected s'.
  set (test := match changedPath with
               | Some p => String.eqb p configFilePath
               | None => false
               end
               || _isFileInArray configFilePath added
               || _isFileInArray configFilePath removed).
  assert (test = true ↔ affected) as Hiff.
  { unfold test, affected.
    rewrite !orb_true_iff, !_isFileInArray_elem.
    assert (match changedPath with
            | Some p => String.eqb p configFilePath
            | None => false
            end = true ↔ changedPath = Some configFilePath) as ->.
    { destruct changedPath as [p|]; [|naive_solver].
      rewrite String.eqb_eq. naive_solver. }
    tauto. }
  assert (s' = if test then _reloadOptions s else s) as -> by done.
  destruct test.
  - assert affected as Ha by (by apply Hiff).
    split; [done|]. split; [|done]. split; [done|].
    intros Heq. by apply _reloadOptions_changes in Heq.
  - assert (¬ affected) as Hn by (intros Ha%Hiff; done).
    split; [|split; [done|]]; (split; [done|]); intros Heq; exfalso.
    + by apply eq_sym, _reloadOptions_changes in Heq.
    + apply (f_equal length) in Heq. simpl in Heq. lia.
Qed.

(** ** The generation counter *)

Lemma configID_step_mono (e : Event) (s : State) : configID s ≤ configID (step e s).
Proof.
  destruct e as [root|editor| |changedPath added removed|text fullPath|id c]; simpl;
    try lia.
  - unfold _projectFileChanged. case_match; simpl; lia.
  - unfold lintOneFile. simpl. case_match; simpl; lia.
  - destruct (pending s !! id) as [t|]; [|lia].
    destruct t as [dir cfp dp|root settled|root name rest|promise fullPath],
      c as [r| |r|r]; simpl; try lia.
    + destruct settled as [|config|err]; simpl; [lia|..].
      * unfold _reloadOptions_then, _validateUnsupportedConfig,
          _validateUnsupportedConfig_loop. simpl.
        repeat case_match; simpl; lia.
      * unfold _reloadOptions_catch. simpl. case_match; simpl; lia.
    + unfold _validateUnsupportedConfig_resume, _validateUnsupportedConfig_loop,
        _validateUnsupportedConfig_end.
      repeat case_match; simpl; lia.
    + destruct r as [lintResult|]; simpl; [|lia].
      unfold lintOneFile_then. repeat case_match; simpl; lia.
Qed.

Lemma configID_run_mono (events : list Event) (s : State) :
  configID s ≤ configID (run events s).
Proof.
  revert s. induction events as [|e events IH]; intros s; simpl; [lia|].
  pose proof (configID_step_mono e s). pose proof (IH (step e s)). lia.
Qed.

(** C9, amended. A reload starts by clearing ProjectConfig and
    ConfigErrorMessage and incrementing the generation counter; the counter
    is incremented once more when the read of the configuration file is
    over, in the success continuation and in the failure continuation
    alike; it is left as it is when an existence check of the detector is
    over; and no turn of the event loop decreases it, so it never decreases
    along an execution. *)
Theorem generation_counter_never_decreases (s : State) :
  (projectSpecificOptions (_reloadOptions s) = JNull
   ∧ configErrorMessage (_reloadOptions s) = JNull
   ∧ configID (_reloadOptions s) = configID s + 1)
  ∧ (∀ id root config,
       pending s !! id = Some (TReaction root (Fulfilled config)) →
       configID (step (EvComplete id CReaction) s) = configID s + 1)
  ∧ (∀ id root err,
       pending s !! id = Some (TReaction root (Rejected err)) →
       configID (step (EvComplete id CReaction) s) = configID s + 1)
  ∧ (∀ id root name rest r,
       pending s !! id = Some (TExists root name rest) →
       configID (step (EvComplete id (CExists r)) s) = configID s)
  ∧ (∀ e, configID s ≤ configID (step e s))
  ∧ (∀ events later,
       configID (run events s) ≤ configID (run (events ++ later) s)).
Proof.
  split; [done|]. split; [|split; [|split; [|split]]].
  - intros id root config Ht. simpl. rewrite Ht. simpl.
    unfold _reloadOptions_then, _validateUnsupportedConfig,
      _validateUnsupportedConfig_loop. simpl.
    by repeat case_match.
  - intros id root err Ht. simpl. rewrite Ht. simpl.
    unfold _reloadOptions_catch. simpl. by case_match.
  - intros id root name rest r Ht. simpl. rewrite Ht. simpl.
    unfold _validateUnsupportedConfig_resume, _validateUnsupportedConfig_loop,
      _validateUnsupportedConfig_end.
    by repeat case_match.
  - intros e. apply configID_step_mono.
  - intros events later. rewrite run_app. apply configID_run_mono.
Qed.

(** ** The detector of unsupported configuration files *)

Lemma step_complete (id : nat) (t : Task) (c : Completion) (s s' : State) :
  pending s !! id = Some t →
  resume id t c (set_pending (delete id (pending s)) s) = Some s' →
  step (EvComplete id c) s = s'.
Proof. intros Ht Hresume. simpl. by rewrite Ht, Hresume. Qed.

Lemma answer_checks_suspended (present : string → bool) (id n : nat)
    (root name : string) (rest : list string) (s : State) :
  pending s !! id = Some (TExists root name rest) →
  answer_checks present id (S n) s =
    answer_checks present id n
      (_validateUnsupportedConfig_resume id root name rest
         (ExistsResolved (present (path_join root name)))
         (set_pending (delete id (pending s)) s)).
Proof.
  intros Ht. cbn [answer_checks]. rewrite Ht.
  by erewrite step_complete.
Qed.

Lemma answer_checks_over (present : string → bool) (id n : nat) (s : State) :
  pending s !! id = None → answer_checks present id n s = s.
Proof. intros Hnone. destruct n; [done|]. cbn [answer_checks]. by rewrite Hnone. Qed.

(** The detector, started in [s] and answered from the set [present]
    while the project root stays as it is: the effect when the root is the
    captured one, and when it is another. *)
Lemma detector_outcome (present : string → bool) (id : nat) (root : string)
    (s : State) :
  let js := path_join root ".htmlvalidate.js" in
  let cjs := path_join root ".htmlvalidate.cjs" in
  let s' := answer_checks present id 2 (_validateUnsupportedConfig id root s) in
  let checks := (if present js then [] else [existsAsync cjs]) ++ [existsAsync js] in
  projectSpecificOptions s' = projectSpecificOptions s
  ∧ configID s' = configID s
  ∧ pending s' = delete id (pending s)
  ∧ (projectRoot s = root →
     configErrorMessage s' =
       (if present js
        then JString (StringUtils_format HTML_LINT_CONFIG_UNSUPPORTED ".htmlvalidate.js")
        else if present cjs
        then JString (StringUtils_format HTML_LINT_CONFIG_UNSUPPORTED ".htmlvalidate.cjs")
        else JUndefined)
     ∧ hostLog s' = requestRun HTML_LINT_NAME :: checks ++ hostLog s)
  ∧ (projectRoot s ≠ root →
     configErrorMessage s' = configErrorMessage s
     ∧ hostLog s' = checks ++ hostLog s).
Proof.
  intros js cjs s' checks. subst s' checks.
  unfold _validateUnsupportedConfig, UNSUPPORTED_CONFIG_FILES.
  cbn [_validateUnsupportedConfig_loop].
  erewrite answer_checks_suspended by (simpl; apply lookup_insert_eq).
  fold js. destruct (present js); cbn [_validateUnsupportedConfig_resume].
  - rewrite answer_checks_over.
    2:{ unfold _validateUnsupportedConfig_end. case_match; simpl;
          by rewrite delete_insert_eq, lookup_delete_eq. }
    unfold _validateUnsupportedConfig_end. simpl.
    split; [by case_match|]. split; [by case_match|].
    split; [case_match; simpl; by rewrite delete_insert_eq|].
    split; [intros ->; by rewrite root_matches|].
    intros Hne. by rewrite root_differs.
  - cbn [_validateUnsupportedConfig_loop].
    erewrite answer_checks_suspended by (simpl; apply lookup_insert_eq).
    fold cjs. rewrite answer_checks_over.
    2:{ destruct (present cjs); simpl; unfold _validateUnsupportedConfig_end;
          case_match; simpl; by rewrite lookup_delete_eq. }
    destruct (present cjs); simpl; unfold _validateUnsupportedConfig_end; simpl.
    all: split; [by case_match|]; split; [by case_match|].
    all: split;
      [case_match; simpl;
         by rewrite delete_insert_eq, delete_delete_eq, delete_insert_eq|].
    all: split; [intros ->; by rewrite root_matches|].
    all: intros Hne; by rewrite root_differs.
Qed.

#[local] Arguments answer_checks : simpl never.

Lemma requestRuns_log (s s' : State) (checks : list HostCall) (signal : list HostCall) :
  hostLog s' = signal ++ checks ++ hostLog s →
  List.filter is_requestRun checks = [] →
  requestRuns s' = (length (List.filter is_requestRun signal) + requestRuns s)%nat.
Proof.
  intros Hlog Hchecks. unfold requestRuns.
  by rewrite Hlog, !List.filter_app, Hchecks, length_app.
Qed.

Lemma reaction_fulfilled (id : nat) (root : string) (config : JSValue) (s : State) :
  pending s !! id = Some (TReaction root (Fulfilled config)) →
  step (EvComplete id CReaction) s =
    _reloadOptions_then id root config (set_pending (delete id (pending s)) s).
Proof. intros Ht. by apply step_complete with (t := TReaction root (Fulfilled config)). Qed.

(** C5, amended. When the read of a reload resolved and the project root is
    still the captured one: if the resolved value is truthy, it becomes the
    ProjectConfig, ConfigErrorMessage is null and no existence check is
    made, whatever files exist; if it is falsy (null for a missing file,
    but also the value of a file whose JSON text is [null], [false], [0] or
    an empty string), the detector runs: it checks [.htmlvalidate.js]
    first and [.htmlvalidate.cjs] only when the first does not exist, and
    the error it reports is formatted for the first of the two that
    exists, so for [.htmlvalidate.js] when both exist. *)
Theorem detector_priority_and_gate (s : State) (id : nat) (root : string)
    (config : JSValue) (present : string → bool) :
  pending s !! id = Some (TReaction root (Fulfilled config)) →
  projectRoot s = root →
  let js := path_join root ".htmlvalidate.js" in
  let cjs := path_join root ".htmlvalidate.cjs" in
  let s1 := step (EvComplete id CReaction) s in
  let s2 := answer_checks present id 2 s1 in
  (ToBoolean config = true →
     projectSpecificOptions s1 = config
     ∧ configErrorMessage s1 = JNull
     ∧ pending s1 = delete id (pending s)
     ∧ hostLog s1 =
         requestRun HTML_LINT_NAME :: countEvent "html" "configPresent" :: hostLog s
     ∧ s2 = s1)
  ∧ (ToBoolean config = false →
     pending s1 !! id = Some (TExists root ".htmlvalidate.js" [".htmlvalidate.cjs"])
     ∧ hostLog s1 = existsAsync js :: hostLog s
     ∧ configErrorMessage s2 =
         (if present js
          then JString (StringUtils_format HTML_LINT_CONFIG_UNSUPPORTED ".htmlvalidate.js")
          else if present cjs
          then JString (StringUtils_format HTML_LINT_CONFIG_UNSUPPORTED ".htmlvalidate.cjs")
          else JUndefined)
     ∧ hostLog s2 =
         requestRun HTML_LINT_NAME
         :: (if present js then [] else [existsAsync cjs])
         ++ existsAsync js :: hostLog s).
Proof.
  intros Ht Hroot js cjs s1 s2. subst s2 s1.
  rewrite (reaction_fulfilled _ _ _ _ Ht). unfold _reloadOptions_then. simpl.
  rewrite Hroot, root_matches. split; intros Hconfig; rewrite Hconfig.
  - simpl. repeat split.
    apply answer_checks_over. simpl. apply lookup_delete_eq.
  - split; [simpl; by rewrite lookup_insert_eq|]. split; [done|].
    set (s0 := incr_configID (set_pending (delete id (pending s)) s)).
    destruct (detector_outcome present id root s0) as (_ & _ & _ & Hmatch & _).
    destruct Hmatch as [Hmsg Hlog]; [done|].
    split; [done|]. rewrite Hlog. simpl. by rewrite <- app_assoc.
Qed.

(** C6, amended. When the read of a reload resolved with null and the
    project root is still the captured one, the detector runs.  When its
    checks are over and the root is still the captured one,
    ConfigErrorMessage becomes the error for the unsupported file found, or
    [undefined] when none was found, ProjectConfig is left as it is, and a
    re-run of lint is signalled in both cases.  When the root is another
    one by then, ProjectConfig and ConfigErrorMessage are left as they are
    and no re-run is signalled. *)
Theorem no_config_runs_detector (s : State) (id : nat) (root other : string)
    (present : string → bool) :
  pending s !! id = Some (TReaction root (Fulfilled JNull)) →
  projectRoot s = root →
  other ≠ root →
  let js := path_join root ".htmlvalidate.js" in
  let cjs := path_join root ".htmlvalidate.cjs" in
  let s1 := step (EvComplete id CReaction) s in
  let same := answer_checks present id 2 s1 in
  let switched := answer_checks present id 2 (step (EvProjectRoot other) s1) in
  (pending s1 !! id = Some (TExists root ".htmlvalidate.js" [".htmlvalidate.cjs"])
   ∧ hostLog s1 = existsAsync js :: hostLog s
   ∧ projectSpecificOptions s1 = projectSpecificOptions s
   ∧ configErrorMessage s1 = configErrorMessage s)
  ∧ (projectSpecificOptions same = projectSpecificOptions s
     ∧ configErrorMessage same =
         (if present js
          then JString (StringUtils_format HTML_LINT_CONFIG_UNSUPPORTED ".htmlvalidate.js")
          else if present cjs
          then JString (StringUtils_format HTML_LINT_CONFIG_UNSUPPORTED ".htmlvalidate.cjs")
          else JUndefined)
     ∧ requestRuns same = S (requestRuns s))
  ∧ (projectSpecificOptions switched = projectSpecificOptions s
     ∧ configErrorMessage switched = configErrorMessage s
     ∧ requestRuns switched = requestRuns s).
Proof.
  intros Ht Hroot Hother js cjs s1 same switched. subst same switched s1.
  rewrite (reaction_fulfilled _ _ _ _ Ht). unfold _reloadOptions_then. simpl.
  rewrite Hroot, root_matches. simpl.
  set (s0 := incr_configID (set_pending (delete id (pending s)) s)).
  split; [|split].
  - by rewrite lookup_insert_eq.
  - destruct (detector_outcome present id root s0)
      as (Hopt & _ & _ & Hmatch & _).
    destruct Hmatch as [Hmsg Hlog]; [done|].
    split; [done|]. split; [done|].
    rewrite (requestRuns_log s0 _ _ [requestRun HTML_LINT_NAME] Hlog); [done|].
    fold js cjs. by destruct (present js).
  - match goal with
    | |- context [answer_checks present id 2 ?x] =>
        change x with (_validateUnsupportedConfig id root (set_projectRoot other s0))
    end.
    destruct (detector_outcome present id root (set_projectRoot other s0))
      as (Hopt & _ & _ & _ & Hdiffer).
    destruct Hdiffer as [Hmsg Hlog]; [done|].
    split; [done|]. split; [done|].
    rewrite (requestRuns_log (set_projectRoot other s0) _ _ [] Hlog); [done|].
    fold js cjs. by destruct (present js).
Qed.
End HtmlLintFacts.

(** * Instances on the sample host *)

Lemma reachable_execute (events : list Event) :
  reachable (H := Sample.host) (Sample.execute events).
Proof. by exists "/p/"%string, None, events. Qed.

Example parse_null : JSON.parse "null" = Some JNull.
Proof. reflexivity. Qed.

Example parse_false : JSON.parse "false" = Some (JBool false).
Proof. reflexivity. Qed.

Example parse_zero :
  JSON.parse " 0.0e3 " = Some (JNumber {| num_neg := false; num_mantissa := 0; num_exp10 := -1 + 3 |}).
Proof. reflexivity. Qed.

Example parse_array :
  JSON.parse " [1, -1.50e1, {}, [null]] "
  = Some (JArray [JNumber {| num_neg := false; num_mantissa := 1; num_exp10 := 0 |};
                  JNumber {| num_neg := true; num_mantissa := 150; num_exp10 := -1 |};
                  JObject []; JArray [JNull]]).
Proof. reflexivity. Qed.

Example parse_member :
  JSON.parse ("{" +:+ String JSON.quote ("k\n" +:+ String JSON.quote " : [true , 1E+2] }"))
  = Some (JObject [("k" +:+ String "010" EmptyString,
                    JArray [JBool true;
                            JNumber {| num_neg := false; num_mantissa := 1;
                                       num_exp10 := 2 |}])]).
Proof. reflexivity. Qed.

Example parse_nested : JSON.parse "[[[[]]]]" = Some (JArray [JArray [JArray [JArray []]]]).
Proof. reflexivity. Qed.

Example parse_leading_zero : JSON.parse "01" = None.
Proof. reflexivity. Qed.

Example parse_bad : JSON.parse "{not valid json" = None.
Proof. reflexivity. Qed.

Example parse_trailing_comma : JSON.parse "[1,]" = None.
Proof. reflexivity. Qed.

Example falsy_values :
  ToBoolean JNull = false ∧ ToBoolean (JBool false) = false
  ∧ ToBoolean (JString EmptyString) = false
  ∧ ToBoolean (JNumber {| num_neg := false; num_mantissa := 0; num_exp10 := 2 |}) = false
  ∧ ToBoolean (JObject []) = true ∧ ToBoolean (JArray []) = true.
Proof. by repeat split. Qed.

(** A project whose configuration file holds an object: the detector is not
    run, whatever else lies in the project. *)
Example object_config_skips_detector :
  let s := Sample.execute [EvProjectOpen; EvComplete 0 (CDocument (DocDone "{}"));
                           EvComplete 0 CReaction] in
  projectSpecificOptions s = JObject []
  ∧ configErrorMessage s = JNull
  ∧ pending s = ∅
  ∧ hostLog s = [requestRun "HTML"; countEvent "html" "configPresent";
                 getDocumentForPath "/p/.htmlvalidate.json"].
Proof. by repeat split. Qed.


(** C2 at work: a request after a reload that ended with a parse error. *)
Lemma config_error_short_circuits_witness :
  let s := Sample.after_parse_error in
  let promise := (lintOneFile "<p>" "/p/a.html" s).1 in
  let s' := (lintOneFile "<p>" "/p/a.html" s).2 in
  let result :=
    Fulfilled (LErrors [ {| pos := {| line := -1; ch := 0 |};
                           endPos := None;
                           message := configErrorMessage s;
                           type := ERROR;
                           moreInfoURL := None |} ]) in
  ToBoolean (configErrorMessage s) = true
  ∧ promises s' !! promise = Some result
  ∧ hostLog s' = hostLog s
  ∧ pending s' = pending s
  ∧ pending (run (H := Sample.host) [EvProjectOpen] s') !! promise = None
  ∧ promises (run (H := Sample.host) [EvProjectOpen] s') !! promise = Some result.
Proof.
  split; [reflexivity|].
  apply (config_error_short_circuits (H := Sample.host) "<p>" "/p/a.html"
           Sample.after_parse_error [EvProjectOpen]).
  - apply reachable_execute.
  - reflexivity.
Defined.

(** C4 at work: the editor moved on to [/p/b.html] before the worker
    answered for [/p/a.html]. *)
Lemma stale_response_is_rejected_witness :
  let s := step (H := Sample.host) (EvEditor (Some (Sample.editor "/p/b.html")))
             Sample.waiting_for_worker in
  let s' := step (H := Sample.host)
              (EvComplete 1 (CPeer (PeerResolved (Some [Sample.finding])))) s in
  let error := Rejected "Lint failed as  a.html is not active."%string in
  pending s !! 1%nat = Some (TExecPeer 1 "/p/a.html")
  ∧ promises s' !! 1%nat = Some error
  ∧ promises (run (H := Sample.host) [EvScanFile "<p>" "/p/b.html"] s') !! 1%nat = Some error
  ∧ projectSpecificOptions s' = projectSpecificOptions s
  ∧ configErrorMessage s' = configErrorMessage s
  ∧ hostLog s' = hostLog s.
Proof.
  split; [reflexivity|].
  apply (stale_response_is_rejected (H := Sample.host)
           (step (H := Sample.host) (EvEditor (Some (Sample.editor "/p/b.html")))
              Sample.waiting_for_worker)
           1 1 "/p/a.html" (Some [Sample.finding]) [EvScanFile "<p>" "/p/b.html"]).
  - apply reachable_step, reachable_execute.
  - reflexivity.
  - simpl. discriminate.
Defined.

(** C7 at work: the worker answered with one finding while [/p/a.html] was
    still in front. *)
Lemma active_response_is_converted_witness :
  let s := Sample.waiting_for_worker in
  let s' := step (H := Sample.host)
              (EvComplete 1 (CPeer (PeerResolved (Some [Sample.finding])))) s in
  pending s !! 1%nat = Some (TExecPeer 1 "/p/a.html")
  ∧ ∃ errors,
      promises s' !! 1%nat = Some (Fulfilled (LErrors errors))
      ∧ length errors = 1%nat
      ∧ ∀ i lintError, [Sample.finding] !! i = Some lintError →
          ∃ d, errors !! i = Some d
            ∧ pos d = posFromIndex (Sample.editor "/p/a.html") (start lintError)
            ∧ endPos d = Some (posFromIndex (Sample.editor "/p/a.html") (end_ lintError))
            ∧ message d = JString (finding_message lintError +:+ " ("
                                   +:+ ruleId lintError +:+ ")")
            ∧ (severity lintError = 1 → type d = WARNING)
            ∧ (severity lintError = 2 → type d = ERROR)
            ∧ (severity lintError ≠ 1 → severity lintError ≠ 2 → type d = META)
            ∧ moreInfoURL d = ruleUrl lintError.
Proof.
  split; [reflexivity|].
  apply (active_response_is_converted (H := Sample.host) Sample.waiting_for_worker
           1 1 "/p/a.html" (Some [Sample.finding]) (Sample.editor "/p/a.html")).
  - apply reachable_execute.
  - reflexivity.
  - reflexivity.
  - reflexivity.
Defined.

(** C10 at work: the call of the worker failed. *)
Lemma backend_failure_leaves_promise_pending_witness :
  let s := Sample.waiting_for_worker in
  let s' := step (H := Sample.host) (EvComplete 1 (CPeer PeerRejected)) s in
  pending s !! 1%nat = Some (TExecPeer 1 "/p/a.html")
  ∧ promises s !! 1%nat = Some Pending
  ∧ promises (run (H := Sample.host)
                [EvComplete 1 (CPeer (PeerResolved None)); EvProjectOpen] s') !! 1%nat
    = Some Pending
  ∧ promises s' = promises s
  ∧ projectSpecificOptions s' = projectSpecificOptions s
  ∧ configErrorMessage s' = configErrorMessage s
  ∧ configID s' = configID s
  ∧ hostLog s' = hostLog s
  ∧ pending s' = delete 1%nat (pending s).
Proof.
  split; [reflexivity|].
  apply (backend_failure_leaves_promise_pending (H := Sample.host)
           Sample.waiting_for_worker 1 1 "/p/a.html"
           [EvComplete 1 (CPeer (PeerResolved None)); EvProjectOpen]).
  - apply reachable_execute.
  - reflexivity.
Defined.

(** C5, amended, at work: the read found the JSON text [false] and both
    unsupported files exist. *)
Lemma detector_priority_and_gate_witness :
  let s := Sample.read_false in
  let present := λ _ : string, true in
  let s1 := step (H := Sample.host) (EvComplete 0 CReaction) s in
  let s2 := answer_checks (H := Sample.host) present 0 2 s1 in
  (pending s !! 0%nat = Some (TReaction "/p/" (Fulfilled (JBool false)))
   ∧ projectRoot s = "/p/"%string)
  ∧ (ToBoolean (JBool false) = true →
       projectSpecificOptions s1 = JBool false
       ∧ configErrorMessage s1 = JNull
       ∧ pending s1 = delete 0%nat (pending s)
       ∧ hostLog s1 = requestRun "HTML" :: countEvent "html" "configPresent" :: hostLog s
       ∧ s2 = s1)
  ∧ (ToBoolean (JBool false) = false →
       pending s1 !! 0%nat = Some (TExists "/p/" ".htmlvalidate.js" [".htmlvalidate.cjs"%string])
       ∧ hostLog s1 = existsAsync "/p/.htmlvalidate.js" :: hostLog s
       ∧ configErrorMessage s2 =
           JString "Error: `.htmlvalidate.js` config file is not supported. Use `.htmlvalidate.json`"
       ∧ hostLog s2 =
           requestRun "HTML" :: existsAsync "/p/.htmlvalidate.js" :: hostLog s).
Proof.
  split; [split; reflexivity|].
  apply (detector_priority_and_gate (H := Sample.host) Sample.read_false 0 "/p/"
           (JBool false) (λ _, true)).
  - reflexivity.
  - reflexivity.
Defined.

(** C6, amended, at work: the read found no file, and neither unsupported
    file exists. *)
Lemma no_config_runs_detector_witness :
  let s := Sample.read_not_found in
  let present := λ _ : string, false in
  let s1 := step (H := Sample.host) (EvComplete 0 CReaction) s in
  let same := answer_checks (H := Sample.host) present 0 2 s1 in
  let switched :=
    answer_checks (H := Sample.host) present 0 2
      (step (H := Sample.host) (EvProjectRoot "/q/") s1) in
  (pending s !! 0%nat = Some (TReaction "/p/" (Fulfilled JNull))
   ∧ projectRoot s = "/p/"%string
   ∧ "/q/"%string ≠ "/p/"%string)
  ∧ (pending s1 !! 0%nat = Some (TExists "/p/" ".htmlvalidate.js" [".htmlvalidate.cjs"%string])
     ∧ hostLog s1 = existsAsync "/p/.htmlvalidate.js" :: hostLog s
     ∧ projectSpecificOptions s1 = projectSpecificOptions s
     ∧ configErrorMessage s1 = configErrorMessage s)
  ∧ (projectSpecificOptions same = projectSpecificOptions s
     ∧ configErrorMessage same = JUndefined
     ∧ requestRuns same = S (requestRuns s))
  ∧ (projectSpecificOptions switched = projectSpecificOptions s
     ∧ configErrorMessage switched = configErrorMessage s
     ∧ requestRuns switched = requestRuns s).
Proof.
  split; [split; [reflexivity|split; [reflexivity|discriminate]]|].
  apply (no_config_runs_detector (H := Sample.host) Sample.read_not_found 0 "/p/" "/q/"
           (λ _, false)).
  - reflexivity.
  - reflexivity.
  - discriminate.
Defined.

(** * Where the code departs from the specification *)


(** C3 as stated fails: a configuration file that was read and whose text is
    [null] makes the loader resolve with null, although the read did not fail
    with the not-found error. *)
Lemma config_file_holding_null_resolves_null :
  let r := DocDone "null" in
  let s := Sample.read_null in
  s = Sample.execute [EvProjectOpen; EvComplete 0 (CDocument r)]
  ∧ pending s !! 0%nat = Some (TReaction "/p/" (Fulfilled JNull))
  ∧ r ≠ DocFail (NOT_FOUND (Host := Sample.host)).
Proof. split; [reflexivity|split; [reflexivity|discriminate]]. Qed.

(** C5 as stated fails: the configuration file holds the valid JSON text
    [false], the loader resolves with [false], which is not null, and the
    detector runs all the same and reports the unsupported file that
    exists. *)
Lemma detector_runs_on_falsy_config :
  let s := Sample.read_false in
  let s' := run (H := Sample.host)
              [EvComplete 0 CReaction; EvComplete 0 (CExists (ExistsResolved true))] s in
  JSON.parse "false" = Some (JBool false)
  ∧ pending s !! 0%nat = Some (TReaction "/p/" (Fulfilled (JBool false)))
  ∧ JBool false ≠ JNull
  ∧ hostLog s' =
      [requestRun "HTML"; existsAsync "/p/.htmlvalidate.js";
       getDocumentForPath "/p/.htmlvalidate.json"]
  ∧ configErrorMessage s' =
      JString "Error: `.htmlvalidate.js` config file is not supported. Use `.htmlvalidate.json`".
Proof. repeat split; (reflexivity || discriminate). Qed.

(** C6 as stated fails: the read found no configuration file, neither
    unsupported file exists and the project root never changed, and a re-run
    of lint is signalled when the checks are over. *)
Lemma rerun_signalled_without_unsupported_file :
  let s := Sample.read_not_found in
  let s' := run (H := Sample.host)
              [EvComplete 0 CReaction;
               EvComplete 0 (CExists (ExistsResolved false));
               EvComplete 0 (CExists (ExistsResolved false))] s in
  requestRuns s = 0%nat
  ∧ projectRoot s' = "/p/"%string
  ∧ hostLog s' =
      [requestRun "HTML"; existsAsync "/p/.htmlvalidate.cjs";
       existsAsync "/p/.htmlvalidate.js"; getDocumentForPath "/p/.htmlvalidate.json"]
  ∧ requestRuns s' = 1%nat
  ∧ projectSpecificOptions s' = JNull
  ∧ configErrorMessage s' = JUndefined.
Proof. repeat split; reflexivity. Qed.

(** C9 as stated fails: the existence checks of the detector are asynchronous
    steps of the reload, and the generation counter is the same after each of
    them as before. *)
Lemma existence_checks_leave_generation :
  let s := run (H := Sample.host) [EvComplete 0 CReaction] Sample.read_not_found in
  let s1 := step (H := Sample.host) (EvComplete 0 (CExists (ExistsResolved false))) s in
  let s2 := step (H := Sample.host) (EvComplete 0 (CExists (ExistsResolved false))) s1 in
  pending s !! 0%nat = Some (TExists "/p/" ".htmlvalidate.js" [".htmlvalidate.cjs"%string])
  ∧ pending s1 !! 0%nat = Some (TExists "/p/" ".htmlvalidate.cjs" [])
  ∧ pending s2 !! 0%nat = None
  ∧ configID s = 2
  ∧ configID s1 = 2
  ∧ configID s2 = 2.
Proof. repeat split; reflexivity. Qed.

(** * Further properties of the module *)

Section HtmlLintMore.
Context `{Host}.

#[local] Arguments answer_checks : simpl never.

(** ** Undisturbed reloads and the request that follows *)

Lemma reaction_rejected (id : nat) (root err : string) (s : State) :
  pending s !! id = Some (TReaction root (Rejected err)) →
  step (EvComplete id CReaction) s =
    _reloadOptions_catch root err (set_pending (delete id (pending s)) s).
Proof. intros Ht. by apply step_complete with (t := TReaction root (Rejected err)). Qed.

(** A reload and the end of its read, with nothing in between. *)
Lemma reload_and_read (s : State) (r : DocResult) :
  let id := nextId s in
  let configFilePath := path_join (projectRoot s) CONFIG_FILE_NAME in
  let displayPath := getProjectRelativeOrDisplayPath (projectRoot s) configFilePath in
  let s' := run [EvProjectOpen; EvComplete id (CDocument r)] s in
  pending s' !! id = Some (TReaction (projectRoot s) (_readConfig_settled displayPath r))
  ∧ projectSpecificOptions s' = JNull
  ∧ configErrorMessage s' = JNull
  ∧ configID s' = configID s + 1
  ∧ projectRoot s' = projectRoot s
  ∧ hostLog s' = getDocumentForPath configFilePath :: hostLog s.
Proof.
  simpl. rewrite lookup_insert_eq. simpl. by rewrite lookup_insert_eq.
Qed.

(** X1. A reload that nothing disturbs and whose configuration file holds
    JSON with a truthy value publishes that value: it is the ProjectConfig,
    ConfigErrorMessage is null, the generation went up by two, one re-run of
    lint was signalled, and the next lint request is sent to the worker with
    this config and this generation. *)
Theorem reload_with_config_publishes_it (s : State) (content : string)
    (config : JSValue) (text fullPath : string) :
  JSON.parse content = Some config →
  ToBoolean config = true →
  let id := nextId s in
  let configFilePath := path_join (projectRoot s) CONFIG_FILE_NAME in
  let s' := run [EvProjectOpen; EvComplete id (CDocument (DocDone content));
                 EvComplete id CReaction] s in
  projectSpecificOptions s' = config
  ∧ configErrorMessage s' = JNull
  ∧ configID s' = configID s + 2
  ∧ hostLog s' =
      [requestRun HTML_LINT_NAME; countEvent "html" "configPresent";
       getDocumentForPath configFilePath] ++ hostLog s
  ∧ pending s' !! id = None
  ∧ hostLog (lintOneFile text fullPath s').2 =
      execPeer text fullPath (configID s + 2) config :: hostLog s'.
Proof.
  intros Hparse Htruthy id configFilePath s'.
  destruct (reload_and_read s (DocDone content))
    as (Ht & Hopt & Hmsg & Hid & Hroot & Hlog).
  fold id configFilePath in Ht, Hopt, Hmsg, Hid, Hroot, Hlog.
  assert (s' = step (EvComplete id CReaction)
                 (run [EvProjectOpen; EvComplete id (CDocument (DocDone content))] s))
    as -> by done.
  remember (run [EvProjectOpen; EvComplete id (CDocument (DocDone content))] s) as s2.
  simpl in Ht. unfold _readConfig_done in Ht. rewrite Hparse in Ht. simpl in Ht.
  rewrite (reaction_fulfilled _ _ _ _ Ht).
  unfold _reloadOptions_then. simpl. rewrite Hroot, root_matches, Htruthy.
  simpl. rewrite Hlog, Hid, lookup_delete_eq.
  unfold lintOneFile. simpl.
  replace (configID s + 1 + 1) with (configID s + 2) by lia.
  by repeat split.
Qed.

(** What a reload that failed leaves behind, and the answer to the lint
    request that follows, for the message [err] of the failure. *)
Lemma reload_failure (s : State) (r : DocResult) (err : string) (text fullPath : string) :
  let id := nextId s in
  let configFilePath := path_join (projectRoot s) CONFIG_FILE_NAME in
  let displayPath := getProjectRelativeOrDisplayPath (projectRoot s) configFilePath in
  _readConfig_settled displayPath r = Rejected err →
  let s' := run [EvProjectOpen; EvComplete id (CDocument r); EvComplete id CReaction] s in
  projectSpecificOptions s' = JNull
  ∧ configErrorMessage s' = JString err
  ∧ configID s' = configID s + 2
  ∧ hostLog s' =
      [requestRun HTML_LINT_NAME; countEvent "HTMLConfig" "error";
       getDocumentForPath configFilePath] ++ hostLog s
  ∧ (err ≠ EmptyString →
     promises (lintOneFile text fullPath s').2 !! (lintOneFile text fullPath s').1 =
       Some (Fulfilled (LErrors [ {| pos := {| line := -1; ch := 0 |};
                                     endPos := None;
                                     message := JString err;
                                     type := ERROR;
                                     moreInfoURL := None |} ]))
     ∧ hostLog (lintOneFile text fullPath s').2 = hostLog s').
Proof.
  intros id configFilePath displayPath Hsettled s'.
  destruct (reload_and_read s r) as (Ht & Hopt & Hmsg & Hid & Hroot & Hlog).
  fold id configFilePath displayPath in Ht, Hopt, Hmsg, Hid, Hroot, Hlog.
  assert (s' = step (EvComplete id CReaction)
                 (run [EvProjectOpen; EvComplete id (CDocument r)] s))
    as -> by done.
  remember (run [EvProjectOpen; EvComplete id (CDocument r)] s) as s2.
  rewrite Hsettled in Ht. rewrite (reaction_rejected _ _ _ _ Ht).
  unfold _reloadOptions_catch. simpl. rewrite Hroot, root_matches.
  simpl. rewrite Hlog, Hid, Hopt.
  replace (configID s + 1 + 1) with (configID s + 2) by lia.
  split; [done|]. split; [done|]. split; [done|]. split; [done|].
  intros Herr. unfold lintOneFile. simpl.
  assert (negb (String.eqb err EmptyString) = true) as ->.
  { by apply negb_true_iff, String.eqb_neq. }
  simpl. split; [|by rewrite Hlog]. by rewrite lookup_alter_eq, lookup_insert_eq.
Qed.

(** X2. A reload that nothing disturbs and whose configuration file does not
    hold valid JSON ends with the HTML_LINT_CONFIG_JSON_ERROR message,
    formatted for the display path of the file, as ConfigErrorMessage, a
    null ProjectConfig and one re-run signalled; unless that message is
    empty, the next lint request is answered at once with the one diagnostic
    that carries it, and the worker is not called. *)
Theorem reload_with_invalid_json_reports_it (s : State) (content : string)
    (text fullPath : string) :
  JSON.parse content = None →
  let id := nextId s in
  let configFilePath := path_join (projectRoot s) CONFIG_FILE_NAME in
  let err :=
    StringUtils_format HTML_LINT_CONFIG_JSON_ERROR
      (getProjectRelativeOrDisplayPath (projectRoot s) configFilePath) in
  let s' := run [EvProjectOpen; EvComplete id (CDocument (DocDone content));
                 EvComplete id CReaction] s in
  projectSpecificOptions s' = JNull
  ∧ configErrorMessage s' = JString err
  ∧ configID s' = configID s + 2
  ∧ hostLog s' =
      [requestRun HTML_LINT_NAME; countEvent "HTMLConfig" "error";
       getDocumentForPath configFilePath] ++ hostLog s
  ∧ (err ≠ EmptyString →
     promises (lintOneFile text fullPath s').2 !! (lintOneFile text fullPath s').1 =
       Some (Fulfilled (LErrors [ {| pos := {| line := -1; ch := 0 |};
                                     endPos := None;
                                     message := JString err;
                                     type := ERROR;
                                     moreInfoURL := None |} ]))
     ∧ hostLog (lintOneFile text fullPath s').2 = hostLog s').
Proof.
  intros Hparse id configFilePath err s'.
  apply (reload_failure s (DocDone content) err text fullPath).
  simpl. unfold _readConfig_done. by rewrite Hparse.
Qed.

(** X3. A reload that nothing disturbs and whose read fails with an error
    other than NOT_FOUND ends with the fixed message
    "Error reading JSHint Config File" as ConfigErrorMessage, whatever the
    error was; the next lint request is answered at once with the one
    diagnostic that carries it, and the worker is not called. *)
Theorem reload_with_read_error_reports_it (s : State) (err : string)
    (text fullPath : string) :
  err ≠ NOT_FOUND →
  let id := nextId s in
  let configFilePath := path_join (projectRoot s) CONFIG_FILE_NAME in
  let s' := run [EvProjectOpen; EvComplete id (CDocument (DocFail err));
                 EvComplete id CReaction] s in
  projectSpecificOptions s' = JNull
  ∧ configErrorMessage s' = JString "Error reading JSHint Config File"
  ∧ configID s' = configID s + 2
  ∧ hostLog s' =
      [requestRun HTML_LINT_NAME; countEvent "HTMLConfig" "error";
       getDocumentForPath configFilePath] ++ hostLog s
  ∧ promises (lintOneFile text fullPath s').2 !! (lintOneFile text fullPath s').1 =
      Some (Fulfilled (LErrors [ {| pos := {| line := -1; ch := 0 |};
                                    endPos := None;
                                    message := JString "Error reading JSHint Config File";
                                    type := ERROR;
                                    moreInfoURL := None |} ]))
  ∧ hostLog (lintOneFile text fullPath s').2 = hostLog s'.
Proof.
  intros Herr id configFilePath s'.
  destruct (reload_failure s (DocFail err) "Error reading JSHint Config File"
              text fullPath) as (Hopt & Hmsg & Hid & Hlog & Hlint).
  { simpl. unfold _readConfig_fail.
    by apply String.eqb_neq in Herr as ->. }
  destruct Hlint as [Hres Hlog']; [done|].
  by repeat split.
Qed.

(** X4. A reload clears the configuration at once: a lint request submitted
    right after a reload started, while its read is still pending, is sent
    to the worker with a null config and the incremented generation,
    whatever ProjectConfig and ConfigErrorMessage were before. *)
Theorem request_during_reload_has_no_config (s : State) (text fullPath : string) :
  let s1 := step EvProjectOpen s in
  let promise := (lintOneFile text fullPath s1).1 in
  let s2 := (lintOneFile text fullPath s1).2 in
  hostLog s2 =
    [execPeer text fullPath (configID s + 1) JNull;
     getDocumentForPath (path_join (projectRoot s) CONFIG_FILE_NAME)] ++ hostLog s
  ∧ promises s2 !! promise = Some Pending
  ∧ pending s2 !! promise = Some (TExecPeer promise fullPath)
  ∧ pending s2 !! nextId s =
      Some (TGetDocument (projectRoot s)
              (path_join (projectRoot s) CONFIG_FILE_NAME)
              (getProjectRelativeOrDisplayPath (projectRoot s)
                 (path_join (projectRoot s) CONFIG_FILE_NAME))).
Proof.
  simpl. rewrite !lookup_insert_eq. rewrite lookup_insert_ne by lia.
  by rewrite lookup_insert_eq.
Qed.

(** X5. A reload that nothing disturbs, in a project with neither a
    configuration file nor an unsupported one: after the two existence
    checks ConfigErrorMessage is [undefined], ProjectConfig is null, one
    re-run of lint was signalled, nothing of the reload is suspended, and the
    next lint request is sent to the worker with a null config. *)
Theorem reload_without_config_lints_with_defaults (s : State) (text fullPath : string) :
  let id := nextId s in
  let root := projectRoot s in
  let s' :=
    run [EvProjectOpen; EvComplete id (CDocument (DocFail NOT_FOUND));
         EvComplete id CReaction;
         EvComplete id (CExists (ExistsResolved false));
         EvComplete id (CExists (ExistsResolved false))] s in
  projectSpecificOptions s' = JNull
  ∧ configErrorMessage s' = JUndefined
  ∧ configID s' = configID s + 2
  ∧ hostLog s' =
      [requestRun HTML_LINT_NAME;
       existsAsync (path_join root ".htmlvalidate.cjs");
       existsAsync (path_join root ".htmlvalidate.js");
       getDocumentForPath (path_join root CONFIG_FILE_NAME)] ++ hostLog s
  ∧ pending s' !! id = None
  ∧ hostLog (lintOneFile text fullPath s').2 =
      execPeer text fullPath (configID s + 2) JNull :: hostLog s'.
Proof.
  intros id root. subst id root. simpl.
  rewrite lookup_insert_eq. simpl. rewrite lookup_insert_eq. simpl.
  unfold _readConfig_fail. rewrite String.eqb_refl. simpl.
  unfold _reloadOptions_then. simpl. rewrite root_matches. simpl.
  rewrite lookup_insert_eq. simpl. rewrite lookup_insert_eq. simpl.
  unfold _validateUnsupportedConfig_end. simpl. rewrite root_matches. simpl.
  rewrite lookup_delete_eq.
  replace (configID s + 1 + 1) with (configID s + 2) by lia.
  by repeat split.
Qed.

(** X6. A reload that nothing disturbs, in a project with no configuration
    file but with an unsupported one: ConfigErrorMessage becomes the
    HTML_LINT_CONFIG_UNSUPPORTED message formatted for the first unsupported
    name that exists; unless that message is empty, the next lint request is
    answered at once with the one diagnostic that carries it, and the worker
    is not called. *)
Theorem reload_with_unsupported_config_reports_it (s : State) (js_exists : bool)
    (text fullPath : string) :
  let id := nextId s in
  let root := projectRoot s in
  let name := if js_exists then ".htmlvalidate.js" else ".htmlvalidate.cjs" in
  let err := StringUtils_format HTML_LINT_CONFIG_UNSUPPORTED name in
  let checks :=
    if js_exists
    then [EvComplete id (CExists (ExistsResolved true))]
    else [EvComplete id (CExists (ExistsResolved false));
          EvComplete id (CExists (ExistsResolved true))] in
  let s' :=
    run ([EvProjectOpen; EvComplete id (CDocument (DocFail NOT_FOUND));
          EvComplete id CReaction] ++ checks) s in
  err ≠ EmptyString →
  projectSpecificOptions s' = JNull
  ∧ configErrorMessage s' = JString err
  ∧ requestRuns s' = S (requestRuns s)
  ∧ pending s' !! id = None
  ∧ promises (lintOneFile text fullPath s').2 !! (lintOneFile text fullPath s').1 =
      Some (Fulfilled (LErrors [ {| pos := {| line := -1; ch := 0 |};
                                    endPos := None;
                                    message := JString err;
                                    type := ERROR;
                                    moreInfoURL := None |} ]))
  ∧ hostLog (lintOneFile text fullPath s').2 = hostLog s'.
Proof.
  intros id root name err checks s' Herr.
  assert (negb (String.eqb err EmptyString) = true) as Hset.
  { by apply negb_true_iff, String.eqb_neq. }
  subst s' checks err name id root. destruct js_exists; simpl.
  - rewrite lookup_insert_eq. simpl. rewrite lookup_insert_eq. simpl.
    unfold _readConfig_fail. rewrite String.eqb_refl. simpl.
    unfold _reloadOptions_then. simpl. rewrite root_matches. simpl.
    rewrite lookup_insert_eq. simpl.
    unfold _validateUnsupportedConfig_end. simpl. rewrite root_matches. simpl.
    unfold lintOneFile. simpl. simpl in Hset. rewrite Hset. simpl.
    rewrite delete_insert_eq, delete_delete_eq, lookup_delete_eq.
    rewrite lookup_alter_eq, lookup_insert_eq. by repeat split.
  - rewrite lookup_insert_eq. simpl. rewrite lookup_insert_eq. simpl.
    unfold _readConfig_fail. rewrite String.eqb_refl. simpl.
    unfold _reloadOptions_then. simpl. rewrite root_matches. simpl.
    rewrite lookup_insert_eq. simpl. rewrite lookup_insert_eq. simpl.
    unfold _validateUnsupportedConfig_end. simpl. rewrite root_matches. simpl.
    unfold lintOneFile. simpl. simpl in Hset. rewrite Hset. simpl.
    rewrite lookup_delete_eq.
    rewrite lookup_alter_eq, lookup_insert_eq. by repeat split.
Qed.

(** ** Promises and requests *)

Lemma settled_step (p : nat) (v : LintPromise) (e : Event) (s : State) :
  consistent s → promises s !! p = Some v → v ≠ Pending →
  promises (step e s) !! p = Some v.
Proof.
  intros (Hp & Hq & Hx) Hv Hsettled.
  assert (p < nextId s)%nat as Hlt by eauto.
  destruct e as [root|editor| |changedPath added removed|text fullPath|id c]; simpl;
    try done.
  - unfold _projectFileChanged. by case_match.
  - unfold lintOneFile. simpl. case_match; simpl.
    + by rewrite lookup_alter_ne, lookup_insert_ne by lia.
    + by rewrite lookup_insert_ne by lia.
  - destruct (pending s !! id) as [t|] eqn:Ht; [|done].
    destruct t as [dir cfp dp|root settled|root name rest|promise fullPath],
      c as [r| |r|r]; simpl; try done.
    + destruct settled as [|config|err]; simpl; [done|..].
      * unfold _reloadOptions_then, _validateUnsupportedConfig,
          _validateUnsupportedConfig_loop. simpl.
        by repeat case_match.
      * unfold _reloadOptions_catch. simpl. by case_match.
    + unfold _validateUnsupportedConfig_resume, _validateUnsupportedConfig_loop,
        _validateUnsupportedConfig_end.
      by repeat case_match.
    + destruct (Hx _ _ _ Ht) as [-> Hpending].
      assert (id ≠ p) as Hne by (intros ->; congruence).
      destruct r as [lintResult|]; simpl; [|done].
      unfold lintOneFile_then.
      repeat case_match; simpl; by rewrite ?lookup_alter_ne by done.
Qed.

(** X7. A lint promise that is settled, resolved or rejected, keeps its
    state over every execution: nothing the module does later resolves or
    rejects it a second time. *)
Theorem settled_promise_is_final (s : State) (p : nat) (v : LintPromise)
    (events : list Event) :
  reachable s →
  promises s !! p = Some v →
  v ≠ Pending →
  promises (run events s) !! p = Some v.
Proof.
  intros Hreach Hv Hsettled.
  pose proof (reachable_consistent s Hreach) as Hs. clear Hreach.
  revert s Hs Hv. induction events as [|e events IH]; intros s Hs Hv; [done|].
  simpl. apply IH; [by apply consistent_step|by apply settled_step].
Qed.

(** X8. The answer of the worker to one request touches that request only:
    the promise of every other request and every other suspended computation
    are as they were, and so are ProjectConfig, ConfigErrorMessage, the
    generation and the log of calls into the host. *)
Theorem worker_answer_is_local (s : State) (id promise : nat) (fullPath : string)
    (r : PeerResult) (other : nat) :
  reachable s →
  pending s !! id = Some (TExecPeer promise fullPath) →
  other ≠ id →
  let s' := step (EvComplete id (CPeer r)) s in
  promises s' !! other = promises s !! other
  ∧ pending s' !! other = pending s !! other
  ∧ projectSpecificOptions s' = projectSpecificOptions s
  ∧ configErrorMessage s' = configErrorMessage s
  ∧ configID s' = configID s
  ∧ hostLog s' = hostLog s.
Proof.
  intros Hreach Ht Hother s'.
  destruct (reachable_consistent s Hreach) as (_ & _ & Hx).
  destruct (Hx _ _ _ Ht) as [-> _].
  subst s'. simpl. rewrite Ht. destruct r as [lintResult|]; simpl.
  - unfold lintOneFile_then.
    repeat case_match; simpl;
      by rewrite ?lookup_alter_ne, ?lookup_delete_ne by done.
  - by rewrite lookup_delete_ne.
Qed.

(** X9. Submitting a lint request never writes the configuration: in every
    state of an execution, the first request included, and whether the
    request is answered at once or sent to the worker, ProjectConfig,
    ConfigErrorMessage and the generation are as before; the request gets a
    promise that no earlier request holds, and every other promise is
    untouched. *)
Theorem request_keeps_configuration (s : State) (text fullPath : string) :
  reachable s →
  let promise := (lintOneFile text fullPath s).1 in
  let s' := step (EvScanFile text fullPath) s in
  projectSpecificOptions s' = projectSpecificOptions s
  ∧ configErrorMessage s' = configErrorMessage s
  ∧ configID s' = configID s
  ∧ promises s !! promise = None
  ∧ promises s' !! promise ≠ None
  ∧ (∀ other, promises s !! other ≠ None → promise ≠ other)
  ∧ (∀ other, promise ≠ other → promises s' !! other = promises s !! other).
Proof.
  intros Hreach promise s'.
  destruct (reachable_consistent s Hreach) as (_ & Hq & _).
  assert (promises s !! nextId s = None) as Hfresh.
  { destruct (promises s !! nextId s) as [v|] eqn:Hv; [|done].
    apply Hq in Hv. lia. }
  assert (∀ other, promises s !! other ≠ None → nextId s ≠ other) as Hearlier.
  { intros other Hother Heq. apply Hother. by rewrite <- Heq. }
  subst promise s'. unfold step, lintOneFile. simpl.
  destruct (ToBoolean (configErrorMessage s)); simpl.
  - rewrite lookup_alter_eq, lookup_insert_eq.
    repeat split; try done.
    intros other Hother. by rewrite lookup_alter_ne, lookup_insert_ne.
  - rewrite lookup_insert_eq.
    repeat split; try done.
    intros other Hother. by rewrite lookup_insert_ne.
Qed.

(** ** The generation counter, exactly *)

Lemma countReads_insert (m : gmap nat Task) (i : nat) (t : Task) :
  m !! i = None →
  countReads (<[i := t]> m) = ((if is_read t then 1 else 0) + countReads m)%nat.
Proof.
  intros Hnone. unfold countReads.
  rewrite map_fold_insert_L; [by destruct (is_read t)| |done].
  intros j1 j2 z1 z2 y _ _ _. by destruct (is_read z1), (is_read z2).
Qed.

Lemma countReads_delete (m : gmap nat Task) (i : nat) (t : Task) :
  m !! i = Some t →
  countReads m = ((if is_read t then 1 else 0) + countReads (delete i m))%nat.
Proof.
  intros Ht. unfold countReads.
  rewrite (map_fold_delete_L _ _ i t m); [by destruct (is_read t)| |done].
  intros j1 j2 z1 z2 y _ _ _. by destruct (is_read z1), (is_read z2).
Qed.

Lemma countReads_replace (m : gmap nat Task) (i : nat) (t t' : Task) :
  m !! i = Some t →
  (countReads (<[i := t']> (delete i m)) + (if is_read t then 1 else 0)
   = countReads m + (if is_read t' then 1 else 0))%nat.
Proof.
  intros Ht. rewrite countReads_insert by apply lookup_delete_eq.
  rewrite (countReads_delete m i t Ht). lia.
Qed.

(** The reactions that wait were queued by a settled promise. *)
Lemma reaction_is_settled (s : State) (id : nat) (root : string)
    (settled : Promise JSValue string) :
  reachable s →
  pending s !! id = Some (TReaction root settled) →
  settled ≠ Pending.
Proof.
  intros Hreach. revert id root settled. revert s Hreach.
  apply (reachable_ind' (λ s, ∀ id root settled,
           pending s !! id = Some (TReaction root settled) → settled ≠ Pending)).
  { intros root editor id root' settled. simpl. by rewrite lookup_empty. }
  intros e s _ IH id root settled.
  destruct e as [root'|editor| |changedPath added removed|text fullPath|id' c]; simpl.
  - apply IH.
  - apply IH.
  - intros [[_ [=]]|[_ Hi]]%lookup_insert_Some. eauto.
  - unfold _projectFileChanged. case_match; simpl; [|apply IH].
    intros [[_ [=]]|[_ Hi]]%lookup_insert_Some. eauto.
  - unfold lintOneFile. simpl. case_match; simpl; [apply IH|].
    intros [[_ [=]]|[_ Hi]]%lookup_insert_Some. eauto.
  - destruct (pending s !! id') as [t|] eqn:Ht; [|apply IH].
    destruct t as [dir cfp dp|root' settled'|root' name rest|promise fullPath],
      c as [r| |r|r]; simpl; try apply IH.
    + intros [[_ [= _ <-]]|[_ [_ Hi]%lookup_delete_Some]]%lookup_insert_Some; [|eauto].
      destruct r as [content|err]; simpl.
      * unfold _readConfig_done. by case_match.
      * unfold _readConfig_fail. by case_match.
    + destruct settled' as [|config|err]; simpl.
      * intros [_ Hi]%lookup_delete_Some. eauto.
      * unfold _reloadOptions_then, _validateUnsupportedConfig,
          _validateUnsupportedConfig_loop. simpl.
        repeat case_match; simpl;
          try (intros [[_ [=]]|[_ Hi]]%lookup_insert_Some; revert Hi);
          intros [_ Hi]%lookup_delete_Some; eauto.
      * unfold _reloadOptions_catch. simpl.
        case_match; simpl; intros [_ Hi]%lookup_delete_Some; eauto.
    + unfold _validateUnsupportedConfig_resume, _validateUnsupportedConfig_loop,
        _validateUnsupportedConfig_end.
      repeat case_match; simpl;
        try (intros [[_ [=]]|[_ Hi]]%lookup_insert_Some; revert Hi);
        intros [_ Hi]%lookup_delete_Some; eauto.
    + destruct r as [lintResult|]; simpl.
      * unfold lintOneFile_then.
        repeat case_match; simpl; intros [_ Hi]%lookup_delete_Some; eauto.
      * intros [_ Hi]%lookup_delete_Some. eauto.
Qed.

Lemma generation_step (e : Event) (s : State) :
  reachable s →
  Z.of_nat (readsInFlight s) + configID s = 2 * Z.of_nat (reloadsStarted s)
  ∧ Z.of_nat (reloadsStarted s) ≤ configID s →
  Z.of_nat (readsInFlight (step e s)) + configID (step e s)
  = 2 * Z.of_nat (reloadsStarted (step e s))
  ∧ Z.of_nat (reloadsStarted (step e s)) ≤ configID (step e s).
Proof.
  intros Hreach [Hgen Hle].
  pose proof (reachable_consistent s Hreach) as (Hp & _ & _).
  assert (pending s !! nextId s = None) as Hfresh.
  { destruct (pending s !! nextId s) as [t|] eqn:Ht; [|done]. apply Hp in Ht. lia. }
  unfold readsInFlight, reloadsStarted in *.
  destruct e as [root'|editor| |changedPath added removed|text fullPath|id c]; simpl;
    try done.
  - rewrite countReads_insert by done. cbn [is_read]. lia.
  - unfold _projectFileChanged. case_match; simpl; [|done].
    rewrite countReads_insert by done. cbn [is_read]. lia.
  - unfold lintOneFile. simpl. case_match; simpl; [done|].
    rewrite countReads_insert by done. cbn [is_read]. lia.
  - destruct (pending s !! id) as [t|] eqn:Ht; [|done].
    pose proof (countReads_delete _ _ _ Ht) as Hdel.
    destruct t as [dir cfp dp|root settled|root name rest|promise fullPath],
      c as [r| |r|r]; cbn [is_read] in Hdel; simpl; try done.
    + rewrite countReads_insert by apply lookup_delete_eq. cbn [is_read]. lia.
    + pose proof (reaction_is_settled s id root settled Hreach Ht) as Hsettled.
      destruct settled as [|config|err]; simpl; [done|..].
      * unfold _reloadOptions_then, _validateUnsupportedConfig,
          _validateUnsupportedConfig_loop. simpl.
        repeat case_match; simpl;
          rewrite ?countReads_insert by apply lookup_delete_eq; cbn [is_read]; lia.
      * unfold _reloadOptions_catch. simpl.
        case_match; simpl; lia.
    + unfold _validateUnsupportedConfig_resume, _validateUnsupportedConfig_loop,
        _validateUnsupportedConfig_end.
      repeat case_match; simpl;
        rewrite ?countReads_insert by apply lookup_delete_eq; cbn [is_read]; lia.
    + destruct r as [lintResult|]; simpl; [|lia].
      unfold lintOneFile_then.
      repeat case_match; simpl; lia.
Qed.

(** X10. In every reachable state the generation counter equals the number
    of reloads started plus the number of those whose reaction to the read
    has run: twice the reloads started, less the reloads still waiting for
    their read or for the reaction to it.  So it is at least the number of
    reloads started and at most twice that number. *)
Theorem generation_counts_reloads (s : State) :
  reachable s →
  configID s = 2 * Z.of_nat (reloadsStarted s) - Z.of_nat (readsInFlight s)
  ∧ (readsInFlight s ≤ reloadsStarted s)%nat
  ∧ Z.of_nat (reloadsStarted s) ≤ configID s ≤ 2 * Z.of_nat (reloadsStarted s).
Proof.
  intros Hreach.
  assert (Z.of_nat (readsInFlight s) + configID s = 2 * Z.of_nat (reloadsStarted s)
          ∧ Z.of_nat (reloadsStarted s) ≤ configID s) as [Hgen Hle]; [|lia].
  revert s Hreach. apply reachable_ind'.
  - intros root editor. unfold readsInFlight, countReads, reloadsStarted. simpl.
    rewrite map_fold_empty. lia.
  - intros e s Hreach IH. by apply generation_step.
Qed.

(** ** Overlapping reloads *)

(** X11. When the reads of two reloads of the current project have both
    ended, one with a failure and one with a truthy config, the reaction
    that runs last decides ConfigErrorMessage, whichever reload was started
    first: if the failure reacts last, the error is set while ProjectConfig
    still holds the config of the other reload; if the success reacts last,
    the error is cleared. *)
Theorem last_reaction_wins (s : State) (a b : nat) (root err : string)
    (config : JSValue) :
  pending s !! a = Some (TReaction root (Rejected err)) →
  pending s !! b = Some (TReaction root (Fulfilled config)) →
  ToBoolean config = true →
  projectRoot s = root →
  let failure_last := run [EvComplete b CReaction; EvComplete a CReaction] s in
  let success_last := run [EvComplete a CReaction; EvComplete b CReaction] s in
  (projectSpecificOptions failure_last = config
   ∧ configErrorMessage failure_last = JString err)
  ∧ (projectSpecificOptions success_last = config
     ∧ configErrorMessage success_last = JNull)
  ∧ configID failure_last = configID s + 2
  ∧ configID success_last = configID s + 2.
Proof.
  intros Ha Hb Htruthy <- failure_last success_last.
  assert (a ≠ b) as Hne by (intros ->; congruence).
  subst failure_last success_last. simpl. rewrite Ha, Hb. simpl.
  unfold _reloadOptions_then, _reloadOptions_catch. simpl.
  rewrite root_matches, Htruthy. simpl.
  rewrite !lookup_delete_ne by done. rewrite Ha, Hb. simpl.
  unfold _reloadOptions_then, _reloadOptions_catch. simpl.
  rewrite root_matches, Htruthy. simpl.
  repeat split; lia.
Qed.

(** ** The detector under interleaving *)

(** X12. Whatever the interleaving, a detector that waits for an existence
    check waits either for [.htmlvalidate.js], with [.htmlvalidate.cjs] still
    to visit, or for [.htmlvalidate.cjs], with nothing left: no other name
    is ever checked, and never in another order. *)
Theorem detector_checks_known_names (s : State) (id : nat) (root name : string)
    (rest : list string) :
  reachable s →
  pending s !! id = Some (TExists root name rest) →
  (name = ".htmlvalidate.js"%string ∧ rest = [".htmlvalidate.cjs"%string])
  ∨ (name = ".htmlvalidate.cjs"%string ∧ rest = []).
Proof.
  intros Hreach. revert id root name rest. revert s Hreach.
  apply (reachable_ind' (λ s, ∀ id root name rest,
           pending s !! id = Some (TExists root name rest) →
           (name = ".htmlvalidate.js"%string ∧ rest = [".htmlvalidate.cjs"%string])
           ∨ (name = ".htmlvalidate.cjs"%string ∧ rest = []))).
  { intros root editor id root' name rest. simpl. by rewrite lookup_empty. }
  intros e s _ IH id root name rest.
  destruct e as [root'|editor| |changedPath added removed|text fullPath|id' c]; simpl.
  - apply IH.
  - apply IH.
  - intros [[_ [=]]|[_ Hi]]%lookup_insert_Some. eauto.
  - unfold _projectFileChanged. case_match; simpl; [|apply IH].
    intros [[_ [=]]|[_ Hi]]%lookup_insert_Some. eauto.
  - unfold lintOneFile. simpl. case_match; simpl; [apply IH|].
    intros [[_ [=]]|[_ Hi]]%lookup_insert_Some. eauto.
  - destruct (pending s !! id') as [t|] eqn:Ht; [|apply IH].
    destruct t as [dir cfp dp|root' settled'|root' name' rest'|promise fullPath],
      c as [r| |r|r]; simpl; try apply IH.
    + intros [[_ [=]]|[_ [_ Hi]%lookup_delete_Some]]%lookup_insert_Some. eauto.
    + destruct settled' as [|config|err]; simpl.
      * intros [_ Hi]%lookup_delete_Some. eauto.
      * unfold _reloadOptions_then, _validateUnsupportedConfig,
          _validateUnsupportedConfig_loop. simpl.
        repeat case_match; simpl;
          try (intros [[_ [= _ <- <-]]|[_ Hi]]%lookup_insert_Some; [by left|revert Hi]);
          intros [_ Hi]%lookup_delete_Some; eauto.
      * unfold _reloadOptions_catch. simpl.
        case_match; simpl; intros [_ Hi]%lookup_delete_Some; eauto.
    + destruct (IH _ _ _ _ Ht) as [[-> ->]|[-> ->]];
        unfold _validateUnsupportedConfig_resume, _validateUnsupportedConfig_loop,
          _validateUnsupportedConfig_end;
        repeat case_match; simpl;
          try (intros [[_ [= _ <- <-]]|[_ Hi]]%lookup_insert_Some; [by right|revert Hi]);
          intros [_ Hi]%lookup_delete_Some; eauto.
    + destruct r as [lintResult|]; simpl.
      * unfold lintOneFile_then.
        repeat case_match; simpl; intros [_ Hi]%lookup_delete_Some; eauto.
      * intros [_ Hi]%lookup_delete_Some. eauto.
Qed.

(** X13. The detector compares the project root once, after its last
    existence check: when the project is switched away after the detector
    started and switched back before its last check is answered, the
    detector does not notice, sets ConfigErrorMessage for the file it found
    and signals a re-run of lint. *)
Theorem detector_misses_switch_and_back (s : State) (id : nat)
    (root other name next : string) (rest : list string) :
  pending s !! id = Some (TExists root name (next :: rest)) →
  let s' :=
    run [EvProjectRoot other;
         EvComplete id (CExists (ExistsResolved false));
         EvProjectRoot root;
         EvComplete id (CExists (ExistsResolved true))] s in
  configErrorMessage s' = JString (StringUtils_format HTML_LINT_CONFIG_UNSUPPORTED next)
  ∧ requestRuns s' = S (requestRuns s)
  ∧ projectSpecificOptions s' = projectSpecificOptions s
  ∧ pending s' !! id = None.
Proof.
  intros Ht. simpl. rewrite Ht. simpl. rewrite lookup_insert_eq. simpl.
  unfold _validateUnsupportedConfig_end. simpl. rewrite root_matches. simpl.
  by rewrite lookup_delete_eq.
Qed.

(** ** The values of the module variables *)

(** X14. In every reachable state ConfigErrorMessage is [undefined], null or
    a string, and ProjectConfig is [undefined], null or a truthy value; so
    ConfigErrorMessage is set exactly when it is a string that is not
    empty. *)
Theorem configuration_values (s : State) :
  reachable s →
  (configErrorMessage s = JUndefined ∨ configErrorMessage s = JNull
   ∨ ∃ m, configErrorMessage s = JString m)
  ∧ (projectSpecificOptions s = JUndefined ∨ projectSpecificOptions s = JNull
     ∨ ToBoolean (projectSpecificOptions s) = true)
  ∧ (ToBoolean (configErrorMessage s) = true
     ↔ ∃ m, configErrorMessage s = JString m ∧ m ≠ EmptyString).
Proof.
  intros Hreach.
  assert ((configErrorMessage s = JUndefined ∨ configErrorMessage s = JNull
           ∨ ∃ m, configErrorMessage s = JString m)
          ∧ (projectSpecificOptions s = JUndefined ∨ projectSpecificOptions s = JNull
             ∨ ToBoolean (projectSpecificOptions s) = true)) as [Hmsg Hopt].
  { revert s Hreach. apply reachable_ind'.
    - intros root editor. simpl. by split; left.
    - intros e s _ [Hmsg Hopt].
      destruct e as [root'|editor| |changedPath added removed|text fullPath|id c];
        simpl; try done.
      + split; right; by left.
      + unfold _projectFileChanged. case_match; simpl; [|done].
        split; right; by left.
      + unfold lintOneFile. simpl. by case_match.
      + destruct (pending s !! id) as [t|] eqn:Ht; [|done].
        destruct t as [dir cfp dp|root settled|root name rest|promise fullPath],
          c as [r| |r|r]; simpl; try done.
        * destruct settled as [|config|err]; simpl; [done|..].
          -- unfold _reloadOptions_then, _validateUnsupportedConfig,
               _validateUnsupportedConfig_loop. simpl.
             repeat case_match; simpl; try done.
             split; [right; by left|by right; right].
          -- unfold _reloadOptions_catch. simpl.
             case_match; simpl; [done|]. split; [right; right; by eexists|done].
        * unfold _validateUnsupportedConfig_resume, _validateUnsupportedConfig_loop,
            _validateUnsupportedConfig_end.
          repeat case_match; simpl; try done.
          -- split; [right; right; by eexists|done].
          -- split; [by left|done].
        * destruct r as [lintResult|]; simpl; [|done].
          unfold lintOneFile_then. by repeat case_match. }
  split; [done|]. split; [done|].
  split.
  - intros Hset. destruct Hmsg as [Hm|[Hm|[m Hm]]]; rewrite Hm in Hset; try done.
    exists m. split; [done|]. intros ->. done.
  - intros (m & -> & Hm). simpl. by apply negb_true_iff, String.eqb_neq.
Qed.

(** ** The membership test of the router *)

(** X15. [_isFileInArray] is true exactly when it is handed an array and the
    path is one of its elements: it is false for a missing array and for an
    empty one, and on two arrays joined it is the disjunction of the two
    answers. *)
Theorem isFileInArray_is_membership (pathToMatch : string)
    (filePathArray : option (list string)) (l1 l2 : list string) :
  (_isFileInArray pathToMatch filePathArray = true
   ↔ ∃ l, filePathArray = Some l ∧ pathToMatch ∈ l)
  ∧ _isFileInArray pathToMatch None = false
  ∧ _isFileInArray pathToMatch (Some []) = false
  ∧ _isFileInArray pathToMatch (Some (l1 ++ l2))
    = _isFileInArray pathToMatch (Some l1) || _isFileInArray pathToMatch (Some l2).
Proof.
  split; [apply _isFileInArray_elem|]. split; [done|]. split; [done|].
  simpl. induction l1 as [|p l1 IH]; simpl; [done|].
  by destruct (String.eqb p pathToMatch).
Qed.

(** ** The life of a lint request *)

(** X16. A lint request submitted while no ConfigErrorMessage is set is
    judged by the editor that is in front when the worker answers, not by
    the one in front when it was submitted: if the file of the request is in
    front by then, the findings are published as diagnostics, positions
    taken from that editor, and an answer without findings resolves with
    [undefined]. *)
Theorem request_is_judged_at_answer (s : State) (text fullPath : string)
    (editor : Editor) (lintResult : option (list Finding)) :
  reachable s →
  ToBoolean (configErrorMessage s) = false →
  document_file_fullPath editor = fullPath →
  let promise := (lintOneFile text fullPath s).1 in
  let s' :=
    run [EvScanFile text fullPath; EvEditor (Some editor);
         EvComplete promise (CPeer (PeerResolved lintResult))] s in
  promises s' !! promise =
    Some (Fulfilled match lintResult with
                    | None | Some [] => LUndefined
                    | Some findings => LErrors (map (toDiagnostic editor) findings)
                    end)
  ∧ pending s' !! promise = None.
Proof.
  intros Hreach Hunset Hpath promise s'. subst promise s'.
  unfold lintOneFile. simpl. unfold lintOneFile. simpl. rewrite Hunset. simpl.
  rewrite lookup_insert_eq. simpl.
  unfold lintOneFile_then. simpl. rewrite Hpath, root_matches.
  destruct lintResult as [[|lintError findings]|]; simpl;
    by rewrite ?lookup_alter_eq, lookup_insert_eq, lookup_delete_eq.
Qed.

(** What an undisturbed reload that finds a truthy config leaves of the rest
    of the state. *)
Lemma reload_success_frame (s : State) (content : string) (config : JSValue) :
  JSON.parse content = Some config →
  ToBoolean config = true →
  let id := nextId s in
  let s' := run [EvProjectOpen; EvComplete id (CDocument (DocDone content));
                 EvComplete id CReaction] s in
  projectSpecificOptions s' = config
  ∧ configID s' = configID s + 2
  ∧ promises s' = promises s
  ∧ currentFullEditor s' = currentFullEditor s
  ∧ projectRoot s' = projectRoot s
  ∧ ∀ other, other ≠ id → pending s' !! other = pending s !! other.
Proof.
  intros Hparse Htruthy id s'. subst id s'. simpl.
  rewrite lookup_insert_eq. simpl. rewrite lookup_insert_eq. simpl.
  unfold _readConfig_done. rewrite Hparse. simpl.
  unfold _reloadOptions_then. simpl. rewrite root_matches, Htruthy. simpl.
  repeat split; [lia|].
  intros other Hother.
  by rewrite lookup_delete_ne, lookup_insert_ne, lookup_delete_ne, lookup_insert_ne.
Qed.

(** X17. The generation sent to the worker is not compared when the worker
    answers: a reload that starts and publishes a new config while a request
    is at the worker leaves the request in place, and the answer of the
    worker, computed for the old generation and the old config, is published
    all the same. *)
Theorem answer_for_old_generation_is_published (s : State) (text fullPath : string)
    (editor : Editor) (content : string) (config : JSValue)
    (lintError : Finding) (findings : list Finding) :
  reachable s →
  ToBoolean (configErrorMessage s) = false →
  currentFullEditor s = Some editor →
  document_file_fullPath editor = fullPath →
  JSON.parse content = Some config →
  ToBoolean config = true →
  let promise := nextId s in
  let reload := S (nextId s) in
  let sent := run [EvScanFile text fullPath] s in
  let reloaded :=
    run [EvProjectOpen; EvComplete reload (CDocument (DocDone content));
         EvComplete reload CReaction] sent in
  let s' :=
    step (EvComplete promise (CPeer (PeerResolved (Some (lintError :: findings)))))
      reloaded in
  hostLog sent =
    execPeer text fullPath (configID s) (projectSpecificOptions s) :: hostLog s
  ∧ configID reloaded = configID s + 2
  ∧ projectSpecificOptions reloaded = config
  ∧ promises reloaded !! promise = Some Pending
  ∧ promises s' !! promise =
      Some (Fulfilled (LErrors (map (toDiagnostic editor) (lintError :: findings)))).
Proof.
  intros Hreach Hunset Heditor Hpath Hparse Htruthy promise reload sent reloaded s'.
  assert (hostLog sent =
            execPeer text fullPath (configID s) (projectSpecificOptions s) :: hostLog s
          ∧ pending sent !! promise = Some (TExecPeer promise fullPath)
          ∧ promises sent !! promise = Some Pending
          ∧ nextId sent = reload
          ∧ configID sent = configID s
          ∧ currentFullEditor sent = Some editor)
    as (Hlog & Htask & Hpending & Hnext & Hid & Hed).
  { subst sent promise reload. unfold run. simpl. unfold lintOneFile. simpl.
    rewrite Hunset. simpl. by rewrite !lookup_insert_eq. }
  destruct (reload_success_frame sent content config Hparse Htruthy)
    as (Hopt & Hid' & Hprom & Hed' & _ & Hother).
  rewrite Hnext in Hopt, Hid', Hprom, Hed', Hother. fold reloaded in Hopt, Hid', Hprom, Hed', Hother.
  assert (pending reloaded !! promise = Some (TExecPeer promise fullPath)) as Htask'.
  { rewrite Hother; [done|]. subst promise reload. lia. }
  split; [done|]. split; [lia|]. split; [done|].
  split; [by rewrite Hprom|].
  subst s'. erewrite step_complete; [|exact Htask'|reflexivity].
  unfold lintOneFile_then. simpl. rewrite Hed', Hed, Hpath, root_matches. simpl.
  by rewrite !lookup_alter_eq, Hprom, Hpending.
Qed.

(** ** Switching projects *)

Lemma reload_and_read_frame (s : State) (r : DocResult) (other : nat) :
  other ≠ nextId s →
  pending (run [EvProjectOpen; EvComplete (nextId s) (CDocument r)] s) !! other
  = pending s !! other.
Proof.
  intros Hother. simpl. rewrite lookup_insert_eq. simpl.
  by rewrite lookup_insert_ne, lookup_delete_ne, lookup_insert_ne.
Qed.

Lemma then_publishes (id : nat) (root : string) (config : JSValue) (s : State) :
  projectRoot s = root →
  ToBoolean config = true →
  _reloadOptions_then id root config s =
    call (requestRun HTML_LINT_NAME)
      (set_configErrorMessage JNull
         (set_projectSpecificOptions config
            (call (countEvent "html" "configPresent") (incr_configID s)))).
Proof.
  intros <- Htruthy. unfold _reloadOptions_then. simpl.
  by rewrite root_matches, Htruthy.
Qed.

(** X18. The case the guard is written for: while a reload of one project
    waits for its reaction, the project is switched and a reload of the new
    project starts.  The late reaction of the old reload changes nothing but
    the generation, and the reload of the new project publishes its config,
    whatever the old read had found. *)
Theorem switch_discards_old_reload (s : State) (old : nat) (root other : string)
    (settled : Promise JSValue string) (content : string) (config : JSValue) :
  reachable s →
  pending s !! old = Some (TReaction root settled) →
  other ≠ root →
  JSON.parse content = Some config →
  ToBoolean config = true →
  let new := nextId s in
  let s' :=
    run [EvProjectRoot other; EvProjectOpen;
         EvComplete new (CDocument (DocDone content));
         EvComplete old CReaction;
         EvComplete new CReaction] s in
  projectSpecificOptions s' = config
  ∧ configErrorMessage s' = JNull
  ∧ configID s' = configID s + 3
  ∧ requestRuns s' = S (requestRuns s)
  ∧ pending s' !! old = None
  ∧ pending s' !! new = None.
Proof.
  intros Hreach Hold Hother Hparse Htruthy new s'.
  pose proof (reaction_is_settled s old root settled Hreach Hold) as Hsettled.
  destruct (reachable_consistent s Hreach) as (Hp & _ & _).
  assert (old ≠ new) as Hne by (apply Hp in Hold; subst new; lia).
  set (s0 := step (EvProjectRoot other) s).
  assert (s' = step (EvComplete new CReaction)
                 (step (EvComplete old CReaction)
                    (run [EvProjectOpen; EvComplete (nextId s0) (CDocument (DocDone content))]
                       s0)))
    as -> by done.
  pose proof (reload_and_read s0 (DocDone content)) as Hread. cbv zeta in Hread.
  pose proof (reload_and_read_frame s0 (DocDone content) old Hne) as Hold2.
  set (s2 := run [EvProjectOpen; EvComplete (nextId s0) (CDocument (DocDone content))] s0)
    in *.
  clearbody s2.
  destruct Hread as (Hnew & Hopt & Hmsg & Hid & Hroot & Hlog).
  change (nextId s0) with new in Hnew.
  change (projectRoot s0) with other in Hnew, Hroot, Hlog.
  change (configID s0) with (configID s) in Hid.
  change (hostLog s0) with (hostLog s) in Hlog.
  change (pending s0) with (pending s) in Hold2.
  cbn [_readConfig_settled] in Hnew.
  unfold _readConfig_done in Hnew. rewrite Hparse in Hnew. simpl in Hnew.
  rewrite Hold in Hold2.
  erewrite (step_complete old _ _ s2); [|exact Hold2|reflexivity].
  rewrite reaction_stale; [|done|simpl; by rewrite Hroot].
  erewrite step_complete;
    [|simpl; rewrite lookup_delete_ne by done; exact Hnew|reflexivity].
  cbn [_reloadOptions_reaction]. rewrite then_publishes by done.
  unfold requestRuns. simpl. rewrite Hlog, Hid. simpl.
  rewrite lookup_delete_eq, delete_delete, lookup_delete_eq.
  repeat split; lia.
Qed.
End HtmlLintMore.

(** * Instances of the further properties on the sample host *)

Lemma reachable_sample_step (e : Event) (events : list Event) :
  reachable (H := Sample.host) (step (H := Sample.host) e (Sample.execute events)).
Proof. apply reachable_step, reachable_execute. Qed.

(** X1 at work: the configuration file holds [{}]. *)
Lemma reload_with_config_publishes_it_witness :
  let s := Sample.execute [] in
  let s' := run (H := Sample.host)
              [EvProjectOpen; EvComplete 0 (CDocument (DocDone "{}"));
               EvComplete 0 CReaction] s in
  projectSpecificOptions s' = JObject []
  ∧ configErrorMessage s' = JNull
  ∧ configID s' = 2
  ∧ hostLog s' =
      [requestRun "HTML"; countEvent "html" "configPresent";
       getDocumentForPath "/p/.htmlvalidate.json"]
  ∧ pending s' !! 0%nat = None
  ∧ hostLog (lintOneFile "<p>" "/p/a.html" s').2 =
      execPeer "<p>" "/p/a.html" 2 (JObject []) :: hostLog s'.
Proof.
  apply (reload_with_config_publishes_it (H := Sample.host) (Sample.execute [])
           "{}" (JObject []) "<p>" "/p/a.html"); reflexivity.
Defined.

(** X2 at work: the configuration file holds [{not valid json]. *)
Lemma reload_with_invalid_json_reports_it_witness :
  let s := Sample.execute [] in
  let err := "Error: Failed to load `.htmlvalidate.json`. Check the file for JSON syntax errors"%string in
  let s' := run (H := Sample.host)
              [EvProjectOpen; EvComplete 0 (CDocument (DocDone "{not valid json"));
               EvComplete 0 CReaction] s in
  projectSpecificOptions s' = JNull
  ∧ configErrorMessage s' = JString err
  ∧ configID s' = 2
  ∧ hostLog s' =
      [requestRun "HTML"; countEvent "HTMLConfig" "error";
       getDocumentForPath "/p/.htmlvalidate.json"]
  ∧ (err ≠ EmptyString →
     promises (lintOneFile "<p>" "/p/a.html" s').2 !! (lintOneFile "<p>" "/p/a.html" s').1 =
       Some (Fulfilled (LErrors [ {| pos := {| line := -1; ch := 0 |};
                                     endPos := None;
                                     message := JString err;
                                     type := ERROR;
                                     moreInfoURL := None |} ]))
     ∧ hostLog (lintOneFile "<p>" "/p/a.html" s').2 = hostLog s').
Proof.
  apply (reload_with_invalid_json_reports_it (H := Sample.host) (Sample.execute [])
           "{not valid json" "<p>" "/p/a.html"); reflexivity.
Defined.

(** X3 at work: the read fails with [NotReadable]. *)
Lemma reload_with_read_error_reports_it_witness :
  let s := Sample.execute [] in
  let s' := run (H := Sample.host)
              [EvProjectOpen; EvComplete 0 (CDocument (DocFail "NotReadable"));
               EvComplete 0 CReaction] s in
  "NotReadable"%string ≠ NOT_FOUND (Host := Sample.host)
  ∧ projectSpecificOptions s' = JNull
  ∧ configErrorMessage s' = JString "Error reading JSHint Config File"
  ∧ configID s' = 2
  ∧ hostLog s' =
      [requestRun "HTML"; countEvent "HTMLConfig" "error";
       getDocumentForPath "/p/.htmlvalidate.json"]
  ∧ promises (lintOneFile "<p>" "/p/a.html" s').2 !! (lintOneFile "<p>" "/p/a.html" s').1 =
      Some (Fulfilled (LErrors [ {| pos := {| line := -1; ch := 0 |};
                                    endPos := None;
                                    message := JString "Error reading JSHint Config File";
                                    type := ERROR;
                                    moreInfoURL := None |} ]))
  ∧ hostLog (lintOneFile "<p>" "/p/a.html" s').2 = hostLog s'.
Proof.
  split; [discriminate|].
  apply (reload_with_read_error_reports_it (H := Sample.host) (Sample.execute [])
           "NotReadable" "<p>" "/p/a.html"); discriminate.
Defined.

(** X6 at work: only [.htmlvalidate.cjs] exists. *)
Lemma reload_with_unsupported_config_reports_it_witness :
  let s := Sample.execute [] in
  let err := "Error: `.htmlvalidate.cjs` config file is not supported. Use `.htmlvalidate.json`"%string in
  let s' := run (H := Sample.host)
              [EvProjectOpen; EvComplete 0 (CDocument (DocFail "NotFound"));
               EvComplete 0 CReaction;
               EvComplete 0 (CExists (ExistsResolved false));
               EvComplete 0 (CExists (ExistsResolved true))] s in
  err ≠ EmptyString
  ∧ projectSpecificOptions s' = JNull
  ∧ configErrorMessage s' = JString err
  ∧ requestRuns s' = 1%nat
  ∧ pending s' !! 0%nat = None
  ∧ promises (lintOneFile "<p>" "/p/a.html" s').2 !! (lintOneFile "<p>" "/p/a.html" s').1 =
      Some (Fulfilled (LErrors [ {| pos := {| line := -1; ch := 0 |};
                                    endPos := None;
                                    message := JString err;
                                    type := ERROR;
                                    moreInfoURL := None |} ]))
  ∧ hostLog (lintOneFile "<p>" "/p/a.html" s').2 = hostLog s'.
Proof.
  split; [discriminate|].
  apply (reload_with_unsupported_config_reports_it (H := Sample.host) (Sample.execute [])
           false "<p>" "/p/a.html"); discriminate.
Defined.

(** X7 at work: the promise answered with the parse error keeps its state
    through a reload and another request. *)
Lemma settled_promise_is_final_witness :
  ∃ v, promises Scenario.answered !! 1%nat = Some v
       ∧ v ≠ Pending
       ∧ promises (run (H := Sample.host)
                     [EvProjectOpen; EvScanFile "<q>" "/p/b.html";
                      EvComplete 1 (CPeer (PeerResolved None))]
                     Scenario.answered) !! 1%nat = Some v.
Proof.
  eexists. split; [reflexivity|]. split; [discriminate|].
  apply (settled_promise_is_final (H := Sample.host) Scenario.answered 1).
  - apply reachable_sample_step.
  - reflexivity.
  - discriminate.
Defined.

(** X8 at work: the worker answers request 1 while request 2 waits. *)
Lemma worker_answer_is_local_witness :
  let s := Scenario.two_requests in
  let s' := step (H := Sample.host)
              (EvComplete 1 (CPeer (PeerResolved (Some [Sample.finding])))) s in
  pending s !! 1%nat = Some (TExecPeer 1 "/p/a.html")
  ∧ promises s' !! 2%nat = promises s !! 2%nat
  ∧ pending s' !! 2%nat = pending s !! 2%nat
  ∧ projectSpecificOptions s' = projectSpecificOptions s
  ∧ configErrorMessage s' = configErrorMessage s
  ∧ configID s' = configID s
  ∧ hostLog s' = hostLog s.
Proof.
  split; [reflexivity|].
  apply (worker_answer_is_local (H := Sample.host) Scenario.two_requests 1 1
           "/p/a.html" (PeerResolved (Some [Sample.finding])) 2).
  - apply reachable_sample_step.
  - reflexivity.
  - discriminate.
Defined.

(** X9 at work: the first request of an execution, no reload having run. *)
Lemma request_keeps_configuration_witness :
  let s := Sample.execute [] in
  let promise := (lintOneFile "<p>" "/p/a.html" s).1 in
  let s' := step (H := Sample.host) (EvScanFile "<p>" "/p/a.html") s in
  projectSpecificOptions s' = projectSpecificOptions s
  ∧ configErrorMessage s' = configErrorMessage s
  ∧ configID s' = configID s
  ∧ promises s !! promise = None
  ∧ promises s' !! promise ≠ None
  ∧ (∀ other, promises s !! other ≠ None → promise ≠ other)
  ∧ (∀ other, promise ≠ other → promises s' !! other = promises s !! other).
Proof.
  apply (request_keeps_configuration (H := Sample.host) (Sample.execute [])
           "<p>" "/p/a.html").
  apply reachable_execute.
Defined.

(** X10 at work: two reloads started, neither reaction run yet. *)
Lemma generation_counts_reloads_witness :
  let s := Scenario.two_reads in
  reloadsStarted s = 2%nat
  ∧ readsInFlight s = 2%nat
  ∧ configID s = 2 * Z.of_nat (reloadsStarted s) - Z.of_nat (readsInFlight s)
  ∧ (readsInFlight s ≤ reloadsStarted s)%nat
  ∧ Z.of_nat (reloadsStarted s) ≤ configID s ≤ 2 * Z.of_nat (reloadsStarted s).
Proof.
  split; [reflexivity|]. split; [reflexivity|].
  apply (generation_counts_reloads (H := Sample.host) Scenario.two_reads).
  apply reachable_execute.
Defined.

(** X11 at work: a parse error and [{}], read by two reloads of [/p/]. *)
Lemma last_reaction_wins_witness :
  let s := Scenario.two_reads in
  let err := "Error: Failed to load `.htmlvalidate.json`. Check the file for JSON syntax errors"%string in
  let failure_last := run (H := Sample.host) [EvComplete 1 CReaction; EvComplete 0 CReaction] s in
  let success_last := run (H := Sample.host) [EvComplete 0 CReaction; EvComplete 1 CReaction] s in
  (projectSpecificOptions failure_last = JObject []
   ∧ configErrorMessage failure_last = JString err)
  ∧ (projectSpecificOptions success_last = JObject []
     ∧ configErrorMessage success_last = JNull)
  ∧ configID failure_last = configID s + 2
  ∧ configID success_last = configID s + 2.
Proof.
  apply (last_reaction_wins (H := Sample.host) Scenario.two_reads 0 1 "/p/"
           "Error: Failed to load `.htmlvalidate.json`. Check the file for JSON syntax errors"
           (JObject [])); reflexivity.
Defined.

(** X12 at work: the detector waits for its first check. *)
Lemma detector_checks_known_names_witness :
  pending Scenario.detecting !! 0%nat
  = Some (TExists "/p/" ".htmlvalidate.js" [".htmlvalidate.cjs"%string])
  ∧ ((".htmlvalidate.js"%string = ".htmlvalidate.js"%string
      ∧ [".htmlvalidate.cjs"%string] = [".htmlvalidate.cjs"%string])
     ∨ (".htmlvalidate.js"%string = ".htmlvalidate.cjs"%string
        ∧ [".htmlvalidate.cjs"%string] = [])).
Proof.
  split; [reflexivity|].
  apply (detector_checks_known_names (H := Sample.host) Scenario.detecting 0 "/p/").
  - apply reachable_sample_step.
  - reflexivity.
Defined.

(** X13 at work: a switch to [/q/] and back to [/p/] between the two
    checks. *)
Lemma detector_misses_switch_and_back_witness :
  let s := Scenario.detecting in
  let s' :=
    run (H := Sample.host)
      [EvProjectRoot "/q/";
       EvComplete 0 (CExists (ExistsResolved false));
       EvProjectRoot "/p/";
       EvComplete 0 (CExists (ExistsResolved true))] s in
  configErrorMessage s' =
    JString "Error: `.htmlvalidate.cjs` config file is not supported. Use `.htmlvalidate.json`"
  ∧ requestRuns s' = S (requestRuns s)
  ∧ projectSpecificOptions s' = projectSpecificOptions s
  ∧ pending s' !! 0%nat = None.
Proof.
  apply (detector_misses_switch_and_back (H := Sample.host) Scenario.detecting 0
           "/p/" "/q/" ".htmlvalidate.js" ".htmlvalidate.cjs" []).
  reflexivity.
Defined.

(** X14 at work: after a parse error. *)
Lemma configuration_values_witness :
  let s := Sample.after_parse_error in
  (configErrorMessage s = JUndefined ∨ configErrorMessage s = JNull
   ∨ ∃ m, configErrorMessage s = JString m)
  ∧ (projectSpecificOptions s = JUndefined ∨ projectSpecificOptions s = JNull
     ∨ ToBoolean (projectSpecificOptions s) = true)
  ∧ (ToBoolean (configErrorMessage s) = true
     ↔ ∃ m, configErrorMessage s = JString m ∧ m ≠ EmptyString).
Proof.
  apply (configuration_values (H := Sample.host) Sample.after_parse_error).
  apply reachable_execute.
Defined.

(** X16 at work: the request is submitted with no editor in front, and
    [/p/a.html] is in front when the worker answers. *)
Lemma request_is_judged_at_answer_witness :
  let s := Sample.execute [] in
  let s' :=
    run (H := Sample.host)
      [EvScanFile "<p>" "/p/a.html"; EvEditor (Some (Sample.editor "/p/a.html"));
       EvComplete 0 (CPeer (PeerResolved (Some [Sample.finding])))] s in
  currentFullEditor s = None
  ∧ promises s' !! 0%nat =
      Some (Fulfilled (LErrors [toDiagnostic (Sample.editor "/p/a.html") Sample.finding]))
  ∧ pending s' !! 0%nat = None.
Proof.
  split; [reflexivity|].
  apply (request_is_judged_at_answer (H := Sample.host) (Sample.execute [])
           "<p>" "/p/a.html" (Sample.editor "/p/a.html") (Some [Sample.finding])).
  - apply reachable_execute.
  - reflexivity.
  - reflexivity.
Defined.

(** X17 at work: the request goes out with generation 0 and no config; the
    answer arrives at generation 2, with [{}] as config. *)
Lemma answer_for_old_generation_is_published_witness :
  let s := Scenario.editing in
  let sent := run (H := Sample.host) [EvScanFile "<p>" "/p/a.html"] s in
  let reloaded :=
    run (H := Sample.host)
      [EvProjectOpen; EvComplete 1 (CDocument (DocDone "{}"));
       EvComplete 1 CReaction] sent in
  let s' :=
    step (H := Sample.host)
      (EvComplete 0 (CPeer (PeerResolved (Some [Sample.finding])))) reloaded in
  hostLog sent = execPeer "<p>" "/p/a.html" 0 JUndefined :: hostLog s
  ∧ configID reloaded = 0 + 2
  ∧ projectSpecificOptions reloaded = JObject []
  ∧ promises reloaded !! 0%nat = Some Pending
  ∧ promises s' !! 0%nat =
      Some (Fulfilled (LErrors [toDiagnostic (Sample.editor "/p/a.html") Sample.finding])).
Proof.
  apply (answer_for_old_generation_is_published (H := Sample.host) Scenario.editing
           "<p>" "/p/a.html" (Sample.editor "/p/a.html") "{}" (JObject [])
           Sample.finding []).
  - apply reachable_execute.
  - reflexivity.
  - reflexivity.
  - reflexivity.
  - reflexivity.
  - reflexivity.
Defined.

(** X18 at work: the reload of [/p/] waits for its reaction when the project
    is switched to [/q/], whose configuration file holds [{}]. *)
Lemma switch_discards_old_reload_witness :
  let s := Sample.read_not_found in
  let s' :=
    run (H := Sample.host)
      [EvProjectRoot "/q/"; EvProjectOpen;
       EvComplete 1 (CDocument (DocDone "{}"));
       EvComplete 0 CReaction;
       EvComplete 1 CReaction] s in
  pending s !! 0%nat = Some (TReaction "/p/" (Fulfilled JNull))
  ∧ projectSpecificOptions s' = JObject []
  ∧ configErrorMessage s' = JNull
  ∧ configID s' = configID s + 3
  ∧ requestRuns s' = S (requestRuns s)
  ∧ pending s' !! 0%nat = None
  ∧ pending s' !! 1%nat = None.
Proof.
  split; [reflexivity|].
  apply (switch_discards_old_reload (H := Sample.host) Sample.read_not_found 0
           "/p/" "/q/" (Fulfilled JNull) "{}" (JObject [])).
  - apply reachable_execute.
  - reflexivity.
  - discriminate.
  - reflexivity.
  - reflexivity.
Defined.
